(** * Wikipedia personal-attack notebook: a verification model

    Shallow embedding of [Manika_Sharma_Project.ipynb].  The notebook is a
    linear script; its code cells are modelled below in the order in which
    they appear.  Calls into pandas, scipy and seaborn are modelled by what
    they do on the values the notebook hands them; what the notebook only
    takes from its libraries and its host (the stemmer, the tokenizer, the
    estimators, the metrics, the network, the archive format, the random
    generator) is the content of the classes [Sklearn], [Estimators] and
    [Host]. *)

From Stdlib Require Import Ascii String DecimalString QArith.
From stdpp Require Import base option list gmap strings.

Local Open Scope list_scope.

(** ** Python strings *)

(** A Python [str] is a sequence of characters (here 8-bit ones; every
    pattern of the notebook is ASCII). *)
Definition str := list ascii.

Definition py (s : string) : str := list_ascii_of_string s.

Module Str.

(** [s.startswith(p)] *)
Fixpoint startswith (p s : str) : bool :=
  match p, s with
  | [], _ => true
  | _ :: _, [] => false
  | a :: p', b :: s' => if decide (a = b) then startswith p' s' else false
  end.

(** The scanning loop of [str.replace(old, new)] for a non-empty [old]:
    walk the string from the left; where [old] starts, emit [new] and jump
    over the match ([skip] counts the characters of the match still to jump
    over), elsewhere copy one character. *)
Fixpoint replace_scan (old new : str) (skip : nat) (s : str) : str :=
  match s with
  | [] => []
  | c :: t =>
      match skip with
      | S k => replace_scan old new k t
      | O =>
          if startswith old s
          then new ++ replace_scan old new (length old - 1) t
          else c :: replace_scan old new 0 t
      end
  end.

(** [s.replace(old, new)].  For an empty [old] Python puts [new] before
    every character and at the end. *)
Definition replace (old new s : str) : str :=
  match old with
  | [] => new ++ flat_map (fun c => c :: new) s
  | _ :: _ => replace_scan old new 0 s
  end.

(** [old in s], computed. *)
Fixpoint contains (old s : str) : bool :=
  startswith old s ||
  match s with
  | [] => false
  | _ :: t => contains old t
  end.

(** [old] occurs in [s] as a contiguous substring. *)
Definition occurs (old s : str) : Prop := ∃ l r, s = l ++ old ++ r.


End Str.

(** ** Numbers

    pandas and numpy hold these columns as float64.  They are modelled by the
    rationals they denote.  Two comparisons with a constant occur:
    [mean > 0.5], where [0.5] is a float64 and the mean of up to [2^53]
    values [0.0]/[1.0] is above [0.5] exactly when its float64 quotient is;
    and [p > 0.425], where the float64 nearest to [0.425] lies below it with
    no float64 in between, so a float64 [p] is above the one exactly when it
    is above the other. *)

(** [x > y] *)
Definition Qgt_bool (x y : Q) : bool := negb (Qle_bool x y).

Definition Qsum (l : list Q) : Q := foldr Qplus 0%Q l.

(** [Series.mean()] of a non-empty series. *)
Definition Qmean (l : list Q) : Q := (Qsum l / inject_Z (Z.of_nat (length l)))%Q.

(** A boolean read as a number, as numpy does. *)
Definition Q_of_bool (b : bool) : Q := if b then 1%Q else 0%Q.

(** ** Tables *)

(** One row of [attack_annotated_comments.tsv], indexed by [rev_id]; the
    [attack] column is added by cell 8 ([None] is pandas' NaN). *)
Module Comment.
Record row := {
  rev_id : Z;
  comment : str;
  year : Z;
  logged_in : bool;
  ns : str;
  sample : str;
  split : str;
  attack : option bool
}.

Definition set_comment (f : str → str) (r : row) : row :=
  {| rev_id := rev_id r; comment := f (comment r); year := year r;
     logged_in := logged_in r; ns := ns r; sample := sample r;
     split := split r; attack := attack r |}.

Definition set_attack (a : option bool) (r : row) : row :=
  {| rev_id := rev_id r; comment := comment r; year := year r;
     logged_in := logged_in r; ns := ns r; sample := sample r;
     split := split r; attack := a |}.
End Comment.

(** One row of [attack_annotations.tsv]: one annotator's judgement of one
    revision (of its columns the notebook reads [rev_id] and [attack]). *)
Module Annotation.
Record row := {
  rev_id : Z;
  worker_id : Z;
  attack : Q
}.
End Annotation.

(** One row of a corpus chunk [chunk_<n>.tsv] (of its columns the notebook
    reads [comment], [bot] and [admin]); [include], [ns] and [year] are the
    columns [load_no_bot_no_admin] assigns.  A [scored] row is a row with the
    [attack] column cell 24 adds. *)
Module Corpus.
Record row := {
  rev_id : Z;
  comment : str;
  bot : Z;
  admin : Z;
  include : Z;
  ns : str;
  year : Z
}.

Record scored := {
  base : row;
  attack : bool
}.

Definition set_include (r : row) (i : Z) : row :=
  {| rev_id := rev_id r; comment := comment r; bot := bot r; admin := admin r;
     include := i; ns := ns r; year := year r |}.

Definition set_ns (n : str) (r : row) : row :=
  {| rev_id := rev_id r; comment := comment r; bot := bot r; admin := admin r;
     include := include r; ns := n; year := year r |}.

Definition set_year (y : Z) (r : row) : row :=
  {| rev_id := rev_id r; comment := comment r; bot := bot r; admin := admin r;
     include := include r; ns := ns r; year := y |}.

Definition set_comment (f : str → str) (r : row) : row :=
  {| rev_id := rev_id r; comment := f (comment r); bot := bot r; admin := admin r;
     include := include r; ns := ns r; year := year r |}.
End Corpus.

(** ** Cells 6 to 8: majority labels *)

(** Cell 6, [len(annotations['rev_id'].unique())] *)
Definition cell6 (annotations : list Annotation.row) : nat :=
  length (remove_dups (map Annotation.rev_id annotations)).

(** [annotations.groupby('rev_id')['attack']]: the [attack] values of each
    [rev_id], in the order of the rows. *)
Definition groupby_rev_id_attack (annotations : list Annotation.row) : gmap Z (list Q) :=
  foldl (λ groups a,
           <[Annotation.rev_id a :=
               default [] (groups !! Annotation.rev_id a) ++ [Annotation.attack a]]> groups)
        ∅ annotations.

(** The [attack] values the annotators gave one [rev_id]. *)
Definition attack_values (rev : Z) (annotations : list Annotation.row) : list Q :=
  map Annotation.attack (filter (λ a, Annotation.rev_id a = rev) annotations).

(** [labels = annotations.groupby('rev_id')['attack'].mean() > 0.5] *)
Definition cell7 (annotations : list Annotation.row) : gmap Z bool :=
  (λ vals, Qgt_bool (Qmean vals) (1 # 2)) <$> groupby_rev_id_attack annotations.

(** [comments['attack'] = labels]: the series is aligned on the index of
    [comments]; a [rev_id] without a label gets NaN. *)
Definition cell8 (comments : list Comment.row) (labels : gmap Z bool) : list Comment.row :=
  map (λ r, Comment.set_attack (labels !! Comment.rev_id r) r) comments.

(** ** Cell 9: cleaning of the labelled comments *)

(** [df['comment'] = df['comment'].apply(f)] *)
Definition apply_comment (f : str → str) (df : list Comment.row) : list Comment.row :=
  map (Comment.set_comment f) df.

Module Clean.

Definition dquote : ascii := ascii_of_nat 34.

Definition NEWLINE_TOKEN : str := py "NEWLINE_TOKEN".
Definition TAB_TOKEN : str := py "TAB_TOKEN".
(** The literal of the third rule.  It is not a raw string: Python reads
    the backslash before the apostrophe and the one before the double quote
    as escapes and drops them; no other backslash of the literal starts an
    escape, so the others stay.  The text has 41 characters. *)
Definition PUNCT : str :=
  py "/[^a-z \d ' \. \, " ++ [dquote] ++ py " \: \; \? \- \!  \s]/i".
(** The raw literal [r"http\S+"]. *)
Definition HTTP : str := py "http\S+".
Definition DIGIT : str := py "[0-9]".

Definition space : str := py " ".
Definition empty : str := [].

Definition rule1 (x : str) : str := Str.replace NEWLINE_TOKEN space x.
Definition rule2 (x : str) : str := Str.replace TAB_TOKEN space x.
Definition rule3 (x : str) : str := Str.replace PUNCT space x.
Definition rule4 (x : str) : str := Str.replace HTTP empty x.
Definition rule5 (x : str) : str := Str.replace DIGIT empty x.

(** The five assignments of cell 9, in order. *)
Definition cell9 (comments : list Comment.row) : list Comment.row :=
  let comments := apply_comment rule1 comments in
  let comments := apply_comment rule2 comments in
  let comments := apply_comment rule3 comments in
  let comments := apply_comment rule4 comments in
  let comments := apply_comment rule5 comments in
  comments.

(** What the five assignments do to one comment. *)
Definition clean_comment (x : str) : str :=
  rule5 (rule4 (rule3 (rule2 (rule1 x)))).

(** What the two cleaning assignments of cell 24 do to one corpus comment. *)
Definition clean_corpus_comment (x : str) : str := rule2 (rule1 x).

(** The five rules as data, pattern and replacement, in the order in which
    cell 9 applies them. *)
Definition rules : list (str * str) :=
  [(NEWLINE_TOKEN, space); (TAB_TOKEN, space); (PUNCT, space); (HTTP, empty); (DIGIT, empty)].

Definition literals : list str := map fst rules.

(** Applying a list of rules one after the other. *)
Definition apply_rules (rs : list (str * str)) (x : str) : str :=
  foldl (λ acc r, Str.replace r.1 r.2 acc) x rs.

(** Every pattern of a rule list is longer than its replacement. *)
Definition shrinking (rs : list (str * str)) : Prop :=
  Forall (λ r, length r.2 < length r.1) rs.

(** None of the patterns occurs in [x]. *)
Definition free_of (patterns : list str) (x : str) : Prop :=
  Forall (λ old, ¬ Str.occurs old x) patterns.

End Clean.

(** Cell 10, [comments.query('attack')['comment'].head()] *)
Definition cell10 (comments : list Comment.row) : list str :=
  take 5 (map Comment.comment (filter (λ r, Comment.attack r = Some true) comments)).

(** ** scikit-learn: text vectorization *)

(** The [analyzer] argument of [CountVectorizer]: the string ['word'] (the
    default) or a callable. *)
Inductive analyzer_arg :=
  | AnalyzerWord
  | AnalyzerCallable (f : str → list str).

(** The [strip_accents] argument: [None], a string, or (as the notebook
    passes it) a set of strings. *)
Inductive strip_accents_arg :=
  | StripNone
  | StripStr (s : str)
  | StripSet (s : list str).

Record CountVectorizerParams := {
  max_df : Q;
  min_df : Z;
  max_features : option Z;
  ngram_range : nat * nat;
  analyzer : analyzer_arg;
  strip_accents : strip_accents_arg
}.

(** [CountVectorizer()] *)
Definition CountVectorizer_defaults : CountVectorizerParams :=
  {| max_df := 1; min_df := 1; max_features := None; ngram_range := (1, 1);
     analyzer := AnalyzerWord; strip_accents := StripNone |}.

Record TfidfParams := {
  norm : option str;
  use_idf : bool;
  smooth_idf : bool;
  sublinear_tf : bool
}.

(** A one-dimensional numpy array handed to a metric: of floats (a column of
    [predict_proba]) or of booleans (the result of [predict]). *)
Inductive ndarray :=
  | floats (l : list Q)
  | bools (l : list bool).

(** What the notebook takes from nltk and scikit-learn without looking
    inside: the Snowball stemmer, the default preprocessor and tokenizer,
    the vocabulary a [CountVectorizer] learns from the analysed training
    documents, the tf-idf weighting, and the metrics. *)
Class Sklearn := {
  stem : str → str;
  preprocess : strip_accents_arg → str → str;
  tokenize : str → list str;
  vocabulary_fit : CountVectorizerParams → list (list str) → gmap str nat;
  TfidfModel : Type;
  Features : Type;
  tfidf_fit : TfidfParams → list (gmap nat nat) → TfidfModel;
  tfidf_transform : TfidfModel → gmap nat nat → Features;
  AucScore : Type;
  PrfsTable : Type;
  ConfusionMatrix : Type;
  roc_auc_score : list (option bool) → ndarray → AucScore;
  precision_recall_fscore_support : list (option bool) → list bool → PrfsTable;
  confusion_matrix : list (option bool) → list bool → ConfusionMatrix;
  classification_report : list (option bool) → list bool → str
}.

(** [" ".join(ws)] *)
Definition space_join (ws : list str) : str :=
  match ws with
  | [] => []
  | w :: ws => w ++ flat_map (λ x, py " " ++ x) ws
  end.

(** The [n]-grams of a token list, left to right. *)
Definition ngrams_of_size (n : nat) (tokens : list str) : list str :=
  map (λ i, space_join (take n (drop i tokens))) (seq 0 (length tokens - n + 1)).

(** [VectorizerMixin._word_ngrams] without stop words: for [max_n = 1] the
    tokens themselves, otherwise the tokens (when [min_n = 1]) followed by
    the longer n-grams. *)
Definition word_ngrams (range : nat * nat) (tokens : list str) : list str :=
  let '(min_n, max_n) := range in
  if decide (max_n = 1) then tokens
  else
    let '(unigrams, min_n) :=
      if decide (min_n = 1) then (tokens, min_n + 1) else ([], min_n) in
    unigrams ++
    flat_map (λ n, ngrams_of_size n tokens)
             (seq min_n (min (max_n + 1) (length tokens + 1) - min_n)).

(** [build_analyzer]: a callable [analyzer] is returned as it is, and then
    [ngram_range], [strip_accents] and the tokenizer play no part; for
    ['word'] the document is preprocessed, tokenized and turned into
    n-grams. *)
Definition build_analyzer `{Sklearn} (p : CountVectorizerParams) : str → list str :=
  match analyzer p with
  | AnalyzerCallable f => f
  | AnalyzerWord =>
      λ doc, word_ngrams (ngram_range p) (tokenize (preprocess (strip_accents p) doc))
  end.

(** One row of [CountVectorizer._count_vocab] for a fixed vocabulary: every
    feature of the document that the vocabulary knows bumps the counter of
    its column; unknown features are skipped.  The row is sparse: a column
    that is absent counts zero. *)
Definition count_vocab (vocabulary : gmap str nat) (features : list str) : gmap nat nat :=
  foldl (λ feature_counter feature,
           match vocabulary !! feature with
           | Some feature_idx =>
               match feature_counter !! feature_idx with
               | None => <[feature_idx := 1]> feature_counter
               | Some n => <[feature_idx := n + 1]> feature_counter
               end
           | None => feature_counter
           end)
        ∅ features.

(** The number of features of a document that fall into column [j]. *)
Definition hits (vocabulary : gmap str nat) (j : nat) (features : list str) : nat :=
  length (filter (λ t, vocabulary !! t = Some j) features).

(** ** scikit-learn: estimators and pipelines *)

(** An estimator usable as the last stage of a pipeline.  [predict_proba] is
    missing on some ([LinearSVC]); calling it there raises.  An estimator
    that draws from an unseeded generator while fitting is one such [fit]
    per run. *)
Record Classifier `{Sklearn} := {
  Fitted : Type;
  fit : list Features → list (option bool) → Fitted;
  predict : Fitted → Features → bool;
  predict_proba : option (Fitted → Features → Q * Q)
}.

Record LinearSVCParams := {
  svc_C : Q;
  svc_class_weight : option str;
  svc_dual : bool;
  svc_fit_intercept : bool;
  svc_intercept_scaling : Q;
  svc_loss : str;
  svc_max_iter : Z;
  svc_multi_class : str;
  svc_penalty : str;
  svc_random_state : Z;
  svc_tol : Q;
  svc_verbose : Z
}.

(** The five estimators the notebook constructs, by their arguments. *)
Class Estimators `{Sklearn} := {
  (** [LogisticRegression(penalty=, dual=)] *)
  LogisticRegression : str → bool → Classifier;
  (** [RandomForestClassifier(n_estimators=, max_depth=, random_state=)] *)
  RandomForestClassifier : Z → Z → Z → Classifier;
  LinearSVC : LinearSVCParams → Classifier;
  MultinomialNB : Classifier;
  MLPClassifier : Classifier
}.

(** [Pipeline([('vect', ...), ('tfidf', ...), ('clf', ...)])] *)
Record Pipeline `{Sklearn} := {
  vect : CountVectorizerParams;
  tfidf : TfidfParams;
  clf : Classifier
}.

Record FittedPipeline `{Sklearn} := {
  steps : Pipeline;
  vocabulary_ : gmap str nat;
  tfidf_ : TfidfModel;
  clf_ : Fitted (clf steps)
}.

Section PipelineOps.
Context `{Sklearn}.

(** [Pipeline.fit(X, y)]: each transformer is fitted on the output of the
    one before it and the last stage on the transformed training set. *)
Definition Pipeline_fit (p : Pipeline) (X : list str) (y : list (option bool)) : FittedPipeline :=
  let docs := map (build_analyzer (vect p)) X in
  let vocabulary := vocabulary_fit (vect p) docs in
  let counts := map (count_vocab vocabulary) docs in
  let model := tfidf_fit (tfidf p) counts in
  let Xt := map (tfidf_transform model) counts in
  {| steps := p; vocabulary_ := vocabulary; tfidf_ := model;
     clf_ := fit (clf p) Xt y |}.

(** The feature vector the fitted transformers extract from one document. *)
Definition count_row (fp : FittedPipeline) (doc : str) : gmap nat nat :=
  count_vocab (vocabulary_ fp) (build_analyzer (vect (steps fp)) doc).

Definition Pipeline_transform (fp : FittedPipeline) (doc : str) : Features :=
  tfidf_transform (tfidf_ fp) (count_row fp doc).

(** [clf.predict(X)] *)
Definition Pipeline_predict (fp : FittedPipeline) (X : list str) : list bool :=
  map (λ doc, predict (clf (steps fp)) (clf_ fp) (Pipeline_transform fp doc)) X.

(** [clf.predict_proba(X)]: raises ([None]) when the last stage has none. *)
Definition Pipeline_predict_proba (fp : FittedPipeline) (X : list str) : option (list (Q * Q)) :=
  match predict_proba (clf (steps fp)) with
  | Some proba => Some (map (λ doc, proba (clf_ fp) (Pipeline_transform fp doc)) X)
  | None => None
  end.

(** [a[:, 1]] *)
Definition column1 (a : list (Q * Q)) : list Q := map snd a.

End PipelineOps.

(** ** Cells 11 to 15: the five classifier-comparison runs *)

(** What a run prints: the classification report, the ROC AUC, the
    precision/recall/f-score table and the confusion matrix. *)
Record Report `{Sklearn} := {
  report_text : str;
  auc : AucScore;
  precision_recall_fscore : PrfsTable;
  cmat : ConfusionMatrix
}.

(** [comments.query("split=='<name>'")] *)
Definition query_split (name : str) (comments : list Comment.row) : list Comment.row :=
  filter (λ r, Comment.split r = name) comments.

Section Runs.
Context `{Sklearn}.

(** [stemmed_words], defined anew with the same body in each of the five
    cells: the stems of the tokens of the default analyzer. *)
Definition stemmed_words (doc : str) : list str :=
  map stem (build_analyzer CountVectorizer_defaults doc).

(** Cell 11 with its last pipeline stage as a parameter.  The ROC AUC is
    computed from column 1 of [predict_proba]. *)
Definition cell11_steps (final : Classifier) (comments : list Comment.row)
  : option (FittedPipeline * Report) :=
  let train_comments := query_split (py "train") comments in
  let test_comments := query_split (py "test") comments in
  let clf :=
    {| vect := {| max_df := 1; min_df := 1; max_features := Some 10000%Z;
                  ngram_range := (1, 4); analyzer := AnalyzerCallable stemmed_words;
                  strip_accents := StripSet [py "ascii"] |};
       tfidf := {| norm := Some (py "l2"); use_idf := true; smooth_idf := true;
                   sublinear_tf := false |};
       clf := final |} in
  let clf := Pipeline_fit clf (map Comment.comment train_comments)
                              (map Comment.attack train_comments) in
  proba ← Pipeline_predict_proba clf (map Comment.comment test_comments);
  let auc := roc_auc_score (map Comment.attack test_comments) (floats (column1 proba)) in
  let predicted_values := Pipeline_predict clf (map Comment.comment test_comments) in
  let precision_recall_fscore :=
    precision_recall_fscore_support (map Comment.attack test_comments) predicted_values in
  let cmat := confusion_matrix (map Comment.attack test_comments) predicted_values in
  Some (clf,
        {| report_text := classification_report (map Comment.attack test_comments) predicted_values;
           auc := auc; precision_recall_fscore := precision_recall_fscore; cmat := cmat |}).

(** Cell 12: as cell 11. *)
Definition cell12_steps (final : Classifier) (comments : list Comment.row)
  : option (FittedPipeline * Report) :=
  let train_comments := query_split (py "train") comments in
  let test_comments := query_split (py "test") comments in
  let clf :=
    {| vect := {| max_df := 1; min_df := 1; max_features := Some 10000%Z;
                  ngram_range := (1, 4); analyzer := AnalyzerCallable stemmed_words;
                  strip_accents := StripSet [py "ascii"] |};
       tfidf := {| norm := Some (py "l2"); use_idf := true; smooth_idf := true;
                   sublinear_tf := false |};
       clf := final |} in
  let clf := Pipeline_fit clf (map Comment.comment train_comments)
                              (map Comment.attack train_comments) in
  proba ← Pipeline_predict_proba clf (map Comment.comment test_comments);
  let auc := roc_auc_score (map Comment.attack test_comments) (floats (column1 proba)) in
  let predicted_values := Pipeline_predict clf (map Comment.comment test_comments) in
  let precision_recall_fscore :=
    precision_recall_fscore_support (map Comment.attack test_comments) predicted_values in
  let cmat := confusion_matrix (map Comment.attack test_comments) predicted_values in
  Some (clf,
        {| report_text := classification_report (map Comment.attack test_comments) predicted_values;
           auc := auc; precision_recall_fscore := precision_recall_fscore; cmat := cmat |}).

(** Cell 13.  Here the ROC AUC is computed from the labels [predict]
    returns, not from [predict_proba]. *)
Definition cell13_steps (final : Classifier) (comments : list Comment.row)
  : option (FittedPipeline * Report) :=
  let train_comments := query_split (py "train") comments in
  let test_comments := query_split (py "test") comments in
  let clf :=
    {| vect := {| max_df := 1; min_df := 1; max_features := Some 10000%Z;
                  ngram_range := (1, 4); analyzer := AnalyzerCallable stemmed_words;
                  strip_accents := StripSet [py "ascii"] |};
       tfidf := {| norm := Some (py "l2"); use_idf := true; smooth_idf := true;
                   sublinear_tf := false |};
       clf := final |} in
  let clf := Pipeline_fit clf (map Comment.comment train_comments)
                              (map Comment.attack train_comments) in
  let auc := roc_auc_score (map Comment.attack test_comments)
               (bools (Pipeline_predict clf (map Comment.comment test_comments))) in
  let predicted_values := Pipeline_predict clf (map Comment.comment test_comments) in
  let precision_recall_fscore :=
    precision_recall_fscore_support (map Comment.attack test_comments) predicted_values in
  let cmat := confusion_matrix (map Comment.attack test_comments) predicted_values in
  Some (clf,
        {| report_text := classification_report (map Comment.attack test_comments) predicted_values;
           auc := auc; precision_recall_fscore := precision_recall_fscore; cmat := cmat |}).

(** Cell 14: as cell 13. *)
Definition cell14_steps (final : Classifier) (comments : list Comment.row)
  : option (FittedPipeline * Report) :=
  let train_comments := query_split (py "train") comments in
  let test_comments := query_split (py "test") comments in
  let clf :=
    {| vect := {| max_df := 1; min_df := 1; max_features := Some 10000%Z;
                  ngram_range := (1, 4); analyzer := AnalyzerCallable stemmed_words;
                  strip_accents := StripSet [py "ascii"] |};
       tfidf := {| norm := Some (py "l2"); use_idf := true; smooth_idf := true;
                   sublinear_tf := false |};
       clf := final |} in
  let clf := Pipeline_fit clf (map Comment.comment train_comments)
                              (map Comment.attack train_comments) in
  let auc := roc_auc_score (map Comment.attack test_comments)
               (bools (Pipeline_predict clf (map Comment.comment test_comments))) in
  let predicted_values := Pipeline_predict clf (map Comment.comment test_comments) in
  let precision_recall_fscore :=
    precision_recall_fscore_support (map Comment.attack test_comments) predicted_values in
  let cmat := confusion_matrix (map Comment.attack test_comments) predicted_values in
  Some (clf,
        {| report_text := classification_report (map Comment.attack test_comments) predicted_values;
           auc := auc; precision_recall_fscore := precision_recall_fscore; cmat := cmat |}).

(** Cell 15: as cell 13. *)
Definition cell15_steps (final : Classifier) (comments : list Comment.row)
  : option (FittedPipeline * Report) :=
  let train_comments := query_split (py "train") comments in
  let test_comments := query_split (py "test") comments in
  let clf :=
    {| vect := {| max_df := 1; min_df := 1; max_features := Some 10000%Z;
                  ngram_range := (1, 4); analyzer := AnalyzerCallable stemmed_words;
                  strip_accents := StripSet [py "ascii"] |};
       tfidf := {| norm := Some (py "l2"); use_idf := true; smooth_idf := true;
                   sublinear_tf := false |};
       clf := final |} in
  let clf := Pipeline_fit clf (map Comment.comment train_comments)
                              (map Comment.attack train_comments) in
  let auc := roc_auc_score (map Comment.attack test_comments)
               (bools (Pipeline_predict clf (map Comment.comment test_comments))) in
  let predicted_values := Pipeline_predict clf (map Comment.comment test_comments) in
  let precision_recall_fscore :=
    precision_recall_fscore_support (map Comment.attack test_comments) predicted_values in
  let cmat := confusion_matrix (map Comment.attack test_comments) predicted_values in
  Some (clf,
        {| report_text := classification_report (map Comment.attack test_comments) predicted_values;
           auc := auc; precision_recall_fscore := precision_recall_fscore; cmat := cmat |}).

(** The pipeline the five cells have in common, up to its last stage. *)
Definition comparison_pipeline (final : Classifier) : Pipeline :=
  {| vect := {| max_df := 1; min_df := 1; max_features := Some 10000%Z;
                ngram_range := (1, 4); analyzer := AnalyzerCallable stemmed_words;
                strip_accents := StripSet [py "ascii"] |};
     tfidf := {| norm := Some (py "l2"); use_idf := true; smooth_idf := true;
                 sublinear_tf := false |};
     clf := final |}.

(** That pipeline fitted on the training rows of a table. *)
Definition fitted_on (final : Classifier) (comments : list Comment.row) : FittedPipeline :=
  Pipeline_fit (comparison_pipeline final)
               (map Comment.comment (query_split (py "train") comments))
               (map Comment.attack (query_split (py "train") comments)).

(** The report all five cells would print if each computed the ROC AUC from
    the array [y_score]: everything else comes from [predict] on the test
    rows. *)
Definition report_with (fp : FittedPipeline) (comments : list Comment.row)
    (y_score : ndarray) : Report :=
  let y_true := map Comment.attack (query_split (py "test") comments) in
  let predicted_values :=
    Pipeline_predict fp (map Comment.comment (query_split (py "test") comments)) in
  {| report_text := classification_report y_true predicted_values;
     auc := roc_auc_score y_true y_score;
     precision_recall_fscore := precision_recall_fscore_support y_true predicted_values;
     cmat := confusion_matrix y_true predicted_values |}.

Context `{!Estimators}.

Definition linear_svc_params : LinearSVCParams :=
  {| svc_C := 1; svc_class_weight := None; svc_dual := true; svc_fit_intercept := true;
     svc_intercept_scaling := 1; svc_loss := py "squared_hinge"; svc_max_iter := 1000;
     svc_multi_class := py "ovr"; svc_penalty := py "l2"; svc_random_state := 0;
     svc_tol := 1 # 10000; svc_verbose := 0 |}.

(** The five runs with the last stage each cell puts in. *)
Definition cell11 := cell11_steps (LogisticRegression (py "l2") false).
Definition cell12 := cell12_steps (RandomForestClassifier 200 100 1).
Definition cell13 := cell13_steps (LinearSVC linear_svc_params).
Definition cell14 := cell14_steps MultinomialNB.
Definition cell15 := cell15_steps MLPClassifier.

(** Cells 16 and 17: [clf.predict([...])] on one sentence each. *)
Definition cell16 (clf : FittedPipeline) : list bool :=
  Pipeline_predict clf [py "Thanks for you contribution, you did a great job!"].
Definition cell17 (clf : FittedPipeline) : list bool :=
  Pipeline_predict clf [py "People as stupid as you should not edit Wikipedia!"].

End Runs.

(** ** The host: files, network, archives, random numbers *)

(** A write to the file system: [urlretrieve(url, fname)] storing a download,
    or [tar -xzf archive] unpacking an archive. *)
Inductive fs_op :=
  | urlretrieve (url fname : str)
  | tar_xzf (archive : str).

(** What the notebook takes from its host without looking inside: the body
    a URL serves ([None]: the request fails), the members of a gzipped tar
    archive ([None]: not an archive), the directory listing [os.walk] yields
    for a file system, the parsers of the three TSV layouts ([None]: pandas
    raises), and one Bernoulli draw of the random generator. *)
Class Host := {
  http_get : str → option str;
  tar_members : str → option (list (str * str));
  os_walk : gmap str str → str → list (str * list str * list str);
  parse_comments : str → option (list Comment.row);
  parse_annotations : str → option (list Annotation.row);
  parse_chunk : str → option (list Corpus.row);
  RNG : Type;
  bernoulli_draw : Q → RNG → bool * RNG
}.

(** The state a run works on: the files by path, the random generator, and
    the record of the writes made so far. *)
Record World `{Host} := {
  files : gmap str str;
  rng : RNG;
  oplog : list fs_op
}.

(** A computation that may raise; what it did to the world before raising
    stays done. *)
Definition Run `{Host} (A : Type) : Type := World → option A * World.

Section RunMonad.
Context `{Host}.

Definition ret {A} (a : A) : Run A := λ w, (Some a, w).

Definition bind {A B} (m : Run A) (k : A → Run B) : Run B :=
  λ w, match m w with
       | (Some a, w') => k a w'
       | (None, w') => (None, w')
       end.

(** A pure step that may raise. *)
Definition lift {A} (o : option A) : Run A := λ w, (o, w).

(** What a run establishes from a given world: [Q] of its result and final
    world when it returns, [E] of the world it leaves when it raises. *)
Definition ensures {A} (m : Run A) (w : World)
    (Q : A → World → Prop) (E : World → Prop) : Prop :=
  match m w with
  | (Some a, w') => Q a w'
  | (None, w') => E w'
  end.

(** The second world has the files and the write record of the first. *)
Definition same_fs (w w' : World) : Prop :=
  files w' = files w ∧ oplog w' = oplog w.

End RunMonad.

Notation "'let*' x ':=' m 'in' k" := (bind m (λ x, k))
  (at level 10, x pattern, m at level 100, k at level 200).

Section HostOps.
Context `{Host}.

(** [download_file(url, fname)], that is [urllib.request.urlretrieve]. *)
Definition download_file (url fname : str) : Run unit :=
  λ w, match http_get url with
       | Some body =>
           (Some (), {| files := <[fname := body]> (files w); rng := rng w;
                        oplog := oplog w ++ [urlretrieve url fname] |})
       | None => (None, w)
       end.

(** [os.system('tar -xzf ' + archive)]: unpacks the members into the working
    directory; [os.system] never raises, a failing [tar] leaves the files as
    they are. *)
Definition os_system_tar_xzf (archive : str) : Run unit :=
  λ w, match files w !! archive ≫= tar_members with
       | Some members =>
           (Some (), {| files := foldl (λ fs m, <[m.1 := m.2]> fs) (files w) members;
                        rng := rng w;
                        oplog := oplog w ++ [tar_xzf archive] |})
       | None => (Some (), w)
       end.

(** [pd.read_csv(path, sep='\t', ...)] *)
Definition read_csv {A} (parse : str → option A) (path : str) : Run A :=
  λ w, (files w !! path ≫= parse, w).

(** [os.walk(top)], all of its triples. *)
Definition walk (top : str) : Run (list (str * list str * list str)) :=
  λ w, (Some (os_walk (files w) top), w).

(** One draw from [bernoulli(prob)], as [0] or [1]. *)
Definition draw (prob : Q) : Run Z :=
  λ w, let '(b, g) := bernoulli_draw prob (rng w) in
       (Some (if b then 1%Z else 0%Z),
        {| files := files w; rng := g; oplog := oplog w |}).

(** [bernoulli.rvs(prob, size=n)] *)
Fixpoint bernoulli_rvs (prob : Q) (n : nat) : Run (list Z) :=
  match n with
  | O => ret []
  | S n =>
      let* x := draw prob in
      let* xs := bernoulli_rvs prob n in
      ret (x :: xs)
  end.

End HostOps.

(** ** Cell 22: [load_no_bot_no_admin] *)

(** [\d], on ASCII names. *)
Definition is_digit (c : ascii) : bool :=
  (48 <=? nat_of_ascii c) && (nat_of_ascii c <=? 57).

(** The tail of the pattern [\d*.tsv]: some digits, one character other than
    a newline, then [tsv]. *)
Fixpoint match_digits_any_tsv (s : str) : bool :=
  match s with
  | [] => false
  | c :: t =>
      (negb (bool_decide (c = ascii_of_nat 10)) && Str.startswith (py "tsv") t)
      || (is_digit c && match_digits_any_tsv t)
  end.

(** [re.match("chunk_\d*.tsv", filename)]: the pattern is matched at the
    start of the name and need not reach its end. *)
Definition re_match_chunk (filename : str) : bool :=
  Str.startswith (py "chunk_") filename && match_digits_any_tsv (drop 6 filename).

(** [os.path.join(a, b)] *)
Definition path_join (a b : str) : str :=
  if Str.startswith (py "/") b then b
  else if bool_decide (a = []) || bool_decide (last a = Some (ascii_of_nat 47))
       then a ++ b
       else a ++ py "/" ++ b.

(** ["%d" % z] *)
Definition format_d (z : Z) : str := py (NilZero.string_of_int (Z.to_int z)).

(** [pd.concat(dfs)]: raises on an empty list. *)
Definition pd_concat {A} (dfs : list (list A)) : option (list A) :=
  match dfs with
  | [] => None
  | _ :: _ => Some (concat dfs)
  end.

(** [df.query("bot == 0 and admin == 0 and include == 1")] *)
Definition query_no_bot_no_admin (df : list Corpus.row) : list Corpus.row :=
  filter (λ r, Corpus.bot r = 0%Z ∧ Corpus.admin r = 0%Z ∧ Corpus.include r = 1%Z) df.

Section Load.
Context `{Host}.

(** [r] stems from a row of a chunk file of [data_dir] that belongs to
    neither a bot nor an admin, with the [include] column set to one. *)
Definition sampled_from (fs : gmap str str) (data_dir : str) (r : Corpus.row) : Prop :=
  ∃ (filename : str) (df : list Corpus.row) (r0 : Corpus.row),
    re_match_chunk filename = true
    ∧ fs !! path_join data_dir filename ≫= parse_chunk = Some df
    ∧ r0 ∈ df ∧ Corpus.bot r0 = 0%Z ∧ Corpus.admin r0 = 0%Z
    ∧ r = Corpus.set_include r0 1.

(** The body of the inner loop for one file name. *)
Definition load_file (data_dir : str) (prob : Q) (filename : str)
    (dfs : list (list Corpus.row)) : Run (list (list Corpus.row)) :=
  if re_match_chunk filename then
    let* df := read_csv parse_chunk (path_join data_dir filename) in
    let* include := bernoulli_rvs prob (length df) in
    let df := zip_with Corpus.set_include df include in
    let df := query_no_bot_no_admin df in
    ret (dfs ++ [df])
  else ret dfs.

(** [for filename in filenames: ...] *)
Fixpoint for_filenames (data_dir : str) (prob : Q) (filenames : list str)
    (dfs : list (list Corpus.row)) : Run (list (list Corpus.row)) :=
  match filenames with
  | [] => ret dfs
  | filename :: rest =>
      let* dfs := load_file data_dir prob filename dfs in
      for_filenames data_dir prob rest dfs
  end.

(** [for _, _, filenames in os.walk(data_dir): ...] *)
Fixpoint for_walk (data_dir : str) (prob : Q)
    (triples : list (str * list str * list str))
    (dfs : list (list Corpus.row)) : Run (list (list Corpus.row)) :=
  match triples with
  | [] => ret dfs
  | (_, _, filenames) :: rest =>
      let* dfs := for_filenames data_dir prob filenames dfs in
      for_walk data_dir prob rest dfs
  end.

Definition load_no_bot_no_admin (ns : str) (year : Z) (prob : Q) : Run (list Corpus.row) :=
  let dfs := [] in
  let data_dir := py "comments_" ++ ns ++ py "_" ++ format_d year in
  let* triples := walk data_dir in
  let* dfs := for_walk data_dir prob triples dfs in
  let* sample := lift (pd_concat dfs) in
  let sample := map (Corpus.set_ns ns) sample in
  let sample := map (Corpus.set_year year) sample in
  ret sample.

(** Cell 23 *)
Definition cell23 : Run (list Corpus.row) :=
  let* corpus_user := load_no_bot_no_admin (py "user") 2004 (1 # 10) in
  let* corpus_article := load_no_bot_no_admin (py "article") 2004 (1 # 10) in
  lift (pd_concat [corpus_user; corpus_article]).

End Load.

(** ** Cells 24 and 25: prevalence of attacks per namespace *)

(** The first two assignments of cell 24. *)
Definition cell24_clean (corpus : list Corpus.row) : list Corpus.row :=
  let corpus := map (Corpus.set_comment Clean.rule1) corpus in
  let corpus := map (Corpus.set_comment Clean.rule2) corpus in
  corpus.

Section Prevalence.
Context `{Sklearn}.

(** Cell 24: two cleaning rules, then the attack column from the second
    column of [predict_proba]. *)
Definition cell24 (clf : FittedPipeline) (corpus : list Corpus.row)
  : option (list Corpus.scored) :=
  let corpus := cell24_clean corpus in
  proba ← Pipeline_predict_proba clf (map Corpus.comment corpus);
  Some (zip_with (λ r p, {| Corpus.base := r; Corpus.attack := Qgt_bool p (425 # 1000) |})
                 corpus (column1 proba)).


End Prevalence.

(** The values of a column in order of first appearance. *)
Fixpoint unique (l : list str) : list str :=
  match l with
  | [] => []
  | x :: t => x :: filter (λ y, y ≠ x) (unique t)
  end.

(** The rows of one namespace. *)
Definition rows_of_ns (n : str) (corpus : list Corpus.scored) : list Corpus.scored :=
  filter (λ r, Corpus.ns (Corpus.base r) = n) corpus.

(** The number of rows of a namespace, and of those marked as attacks. *)
Definition ns_total (n : str) (corpus : list Corpus.scored) : nat :=
  length (rows_of_ns n corpus).

Definition ns_marked (n : str) (corpus : list Corpus.scored) : nat :=
  length (filter (λ r, Corpus.attack r = true) (rows_of_ns n corpus)).

(** Cell 25, [sns.pointplot(data=corpus, x='ns', y='attack')]: one point per
    namespace, at the mean of the [attack] column over its rows. *)
Definition cell25 (corpus : list Corpus.scored) : list (str * Q) :=
  map (λ n, (n, Qmean (map (λ r, Q_of_bool (Corpus.attack r)) (rows_of_ns n corpus))))
      (unique (map (λ r, Corpus.ns (Corpus.base r)) corpus)).

(** ** The notebook, top to bottom *)

Module Url.
Definition ANNOTATED_COMMENTS_URL : str := py "https://ndownloader.figshare.com/files/7554634".
Definition ANNOTATIONS_URL : str := py "https://ndownloader.figshare.com/files/7554637".
Definition USER_TALK_CORPUS_2004_URL : str := py "https://ndownloader.figshare.com/files/6982061".
Definition ARTICLE_TALK_CORPUS_2004_URL : str := py "https://ndownloader.figshare.com/files/7038050".
End Url.

(** Everything the notebook shows. *)
Record Outputs `{Sklearn} := {
  out6 : nat;
  out10 : list str;
  out11 : Report;
  out12 : Report;
  out13 : Report;
  out14 : Report;
  out15 : Report;
  out16 : list bool;
  out17 : list bool;
  out25 : list (str * Q)
}.

(** The files the notebook downloads, and its writes in the order in which
    it makes them. *)
Definition download_targets : list str :=
  [ py "attack_annotated_comments.tsv"; py "attack_annotations.tsv";
    py "comments_user_2004.tar.gz"; py "comments_article_2004.tar.gz" ].

Definition notebook_writes : list fs_op :=
  [ urlretrieve Url.ANNOTATED_COMMENTS_URL (py "attack_annotated_comments.tsv");
    urlretrieve Url.ANNOTATIONS_URL (py "attack_annotations.tsv");
    urlretrieve Url.USER_TALK_CORPUS_2004_URL (py "comments_user_2004.tar.gz");
    urlretrieve Url.ARTICLE_TALK_CORPUS_2004_URL (py "comments_article_2004.tar.gz");
    tar_xzf (py "comments_user_2004.tar.gz");
    tar_xzf (py "comments_article_2004.tar.gz") ].

Section Frame.
Context `{Host}.

(** [path] is the name of a member of some archive. *)
Definition archive_member (path : str) : Prop :=
  ∃ (archive : str) (members : list (str * str)),
    tar_members archive = Some members ∧ path ∈ map fst members.

(** Every file that is neither a download target nor an archive member is
    in [w'] what it was in [w]. *)
Definition untouched (w w' : World) : Prop :=
  ∀ path : str,
    path ∉ download_targets → ¬ archive_member path →
    files w' !! path = files w !! path.

(** Between [w] and [w'] the writes [ops] were made, and no others. *)
Definition wrote (ops : list fs_op) (w w' : World) : Prop :=
  oplog w' = oplog w ++ ops ∧ untouched w w'.

(** Whether it returns or raises, the run makes some of the writes
    [allowed], in their order, and no others. *)
Definition writes_within {A} (allowed : list fs_op) (m : Run A) : Prop :=
  ∀ w : World, ∃ ops : list fs_op, ops `sublist_of` allowed ∧ wrote ops w (m w).2.

(** What a run that returns has added to the record of writes. *)
Definition logs {A} (P : list fs_op → Prop) (m : Run A) : Prop :=
  ∀ w : World, is_Some (m w).1 → ∃ ops, oplog (m w).2 = oplog w ++ ops ∧ P ops.

End Frame.

Section Notebook.
Context `{Sklearn} `{!Estimators} `{Host}.

(** Cell 4 *)
Definition cell4 : Run unit :=
  let* _ := download_file Url.ANNOTATED_COMMENTS_URL (py "attack_annotated_comments.tsv") in
  download_file Url.ANNOTATIONS_URL (py "attack_annotations.tsv").

(** Cell 5 *)
Definition cell5 : Run (list Comment.row * list Annotation.row) :=
  let* comments := read_csv parse_comments (py "attack_annotated_comments.tsv") in
  let* annotations := read_csv parse_annotations (py "attack_annotations.tsv") in
  ret (comments, annotations).

(** Cell 21 *)
Definition cell21 : Run unit :=
  let* _ := download_file Url.USER_TALK_CORPUS_2004_URL (py "comments_user_2004.tar.gz") in
  let* _ := download_file Url.ARTICLE_TALK_CORPUS_2004_URL (py "comments_article_2004.tar.gz") in
  let* _ := os_system_tar_xzf (py "comments_user_2004.tar.gz") in
  os_system_tar_xzf (py "comments_article_2004.tar.gz").

(** The cells in the order of the file; [clf] is rebound by each of the
    cells 11 to 15, so the cells after them see the pipeline of cell 15.
    (Cells 3 and 20 import modules.) *)
Definition notebook : Run Outputs :=
  let* _ := cell4 in
  let* (comments, annotations) := cell5 in
  let o6 := cell6 annotations in
  let labels := cell7 annotations in
  let comments := cell8 comments labels in
  let comments := Clean.cell9 comments in
  let o10 := cell10 comments in
  let* (clf, r11) := lift (cell11 comments) in
  let* (clf, r12) := lift (cell12 comments) in
  let* (clf, r13) := lift (cell13 comments) in
  let* (clf, r14) := lift (cell14 comments) in
  let* (clf, r15) := lift (cell15 comments) in
  let o16 := cell16 clf in
  let o17 := cell17 clf in
  let* _ := cell21 in
  let* corpus := cell23 in
  let* corpus := lift (cell24 clf corpus) in
  ret {| out6 := o6; out10 := o10; out11 := r11; out12 := r12; out13 := r13; out14 := r14; out15 := r15;
         out16 := o16; out17 := o17; out25 := cell25 corpus |}.

End Notebook.

(** ** Notions for the further properties *)

(** An annotator's vote, as the data set records it: [0.0] or [1.0]. *)
Definition is_vote (v : Q) : Prop := v = 0%Q ∨ v = 1%Q.

(** The number of annotators of a [rev_id] who saw an attack. *)
Definition votes_for (rev : Z) (annotations : list Annotation.row) : nat :=
  length (filter (λ v, Qeq_bool v 1 = true) (attack_values rev annotations)).


Section LoadNotions.
Context `{Host}.





End LoadNotions.

(** The tokens of a document that the fitted vectorizer has a column
    for. *)
Definition in_vocabulary `{Sklearn} (fp : FittedPipeline) (tokens : list str) : list str :=
  filter (λ t, is_Some (vocabulary_ fp !! t)) tokens.

(** ** A small concrete library and host

    One instance of each class, small enough to run the notebook on by
    evaluation: a whitespace tokenizer, a vocabulary in order of first
    appearance, no re-weighting, the rank statistic for the ROC AUC, and an
    estimator that scores a document by the number of known tokens in it. *)

Module Demo.

Fixpoint split_words (cur s : str) : list str :=
  match s with
  | [] => match cur with [] => [] | _ :: _ => [cur] end
  | c :: t =>
      if bool_decide (c = ascii_of_nat 32)
      then match cur with [] => split_words [] t | _ :: _ => cur :: split_words [] t end
      else split_words (cur ++ [c]) t
  end.

Definition first_seen (docs : list (list str)) : gmap str nat :=
  foldl (λ v t, match v !! t with Some _ => v | None => <[t := size v]> v end)
        ∅ (concat docs).

Definition scores (a : ndarray) : list Q :=
  match a with
  | floats l => l
  | bools l => map Q_of_bool l
  end.

(** The scores of the rows whose true label is [b]. *)
Definition scores_of_class (b : bool) (y_true : list (option bool)) (y_score : list Q) : list Q :=
  omap (λ p, if decide (p.1 = Some b) then Some p.2 else None) (zip y_true y_score).

Definition pair_credit (pos neg : Q) : Q :=
  if Qgt_bool pos neg then 1%Q else if Qgt_bool neg pos then 0%Q else (1 # 2)%Q.

(** The area under the ROC curve as the share of (positive, negative) pairs
    ranked in the right order, ties counting one half; undefined when a
    class is missing. *)
Definition rank_auc (y_true : list (option bool)) (y_score : ndarray) : option Q :=
  let pos := scores_of_class true y_true (scores y_score) in
  let neg := scores_of_class false y_true (scores y_score) in
  match pos, neg with
  | _ :: _, _ :: _ =>
      Some (Qred (Qsum (flat_map (λ p, map (pair_credit p) neg) pos)
                  / inject_Z (Z.of_nat (length pos * length neg))))
  | _, _ => None
  end.

(** True negatives, false positives, false negatives, true positives. *)
Definition counts (y_true : list (option bool)) (y_pred : list bool) : nat * nat * nat * nat :=
  let n (t p : bool) :=
    length (filter (λ x, x.1 = Some t ∧ x.2 = p) (zip y_true y_pred)) in
  (n false false, n false true, n true false, n true true).

Definition sklearn : Sklearn :=
  {| stem := λ w, w;
     preprocess := λ _ doc, doc;
     tokenize := split_words [];
     vocabulary_fit := λ _ docs, first_seen docs;
     TfidfModel := unit;
     Features := gmap nat nat;
     tfidf_fit := λ _ _, ();
     tfidf_transform := λ _ row, row;
     AucScore := option Q;
     PrfsTable := nat * nat * nat * nat;
     ConfusionMatrix := nat * nat * nat * nat;
     roc_auc_score := rank_auc;
     precision_recall_fscore_support := counts;
     confusion_matrix := counts;
     classification_report := λ _ _, [] |}.

(** The number of known tokens in a row. *)
Definition known (row : gmap nat nat) : nat :=
  map_fold (λ _ c acc, c + acc) 0 row.

(** The score of the attack class: [1/4] without a known token, [1/2] with
    one, [5/8] with two, and closer to [1] with every further one. *)
Definition attack_score (row : gmap nat nat) : Q :=
  Z.of_nat (2 * known row + 1) # Pos.of_nat (2 * known row + 4).

Definition scorer : @Classifier sklearn :=
  @Build_Classifier sklearn unit
    (λ _ _, ())
    (λ _ (row : gmap nat nat), Qgt_bool (attack_score row) (1 # 2))
    (Some (λ _ (row : gmap nat nat), ((1 - attack_score row)%Q, attack_score row))).

(** The same estimator without [predict_proba]. *)
Definition scorer_without_proba : @Classifier sklearn :=
  @Build_Classifier sklearn unit
    (λ _ _, ())
    (λ _ (row : gmap nat nat), Qgt_bool (attack_score row) (1 # 2))
    None.

Definition estimators : @Estimators sklearn :=
  @Build_Estimators sklearn
    (λ _ _, scorer) (λ _ _ _, scorer) (λ _, scorer_without_proba) scorer scorer.

Definition comment_row (rev : Z) (text split : string) : Comment.row :=
  {| Comment.rev_id := rev; Comment.comment := py text; Comment.year := 2002;
     Comment.logged_in := false; Comment.ns := py "article";
     Comment.sample := py "random"; Comment.split := py split;
     Comment.attack := None |}.

Definition comments : list Comment.row :=
  [ comment_row 1 "you fool" "train";
    comment_row 2 "thanks" "train";
    comment_row 3 "fool you fool" "test";
    comment_row 4 "you fool" "test";
    comment_row 5 "fool" "test";
    comment_row 6 "no label" "dev";
    comment_row 7 "thanks you" "test" ].

Definition annotation (rev worker : Z) (a : Q) : Annotation.row :=
  {| Annotation.rev_id := rev; Annotation.worker_id := worker; Annotation.attack := a |}.

Definition annotations : list Annotation.row :=
  [ annotation 1 10 1; annotation 1 11 1; annotation 1 12 0;
    annotation 2 10 0; annotation 2 11 0;
    annotation 3 10 1; annotation 3 12 1;
    annotation 4 11 1;
    annotation 5 10 1; annotation 5 11 0;
    annotation 7 10 0; annotation 7 11 0; annotation 7 12 1 ].

Definition chunk_row (rev : Z) (text : string) (bot admin : Z) : Corpus.row :=
  {| Corpus.rev_id := rev; Corpus.comment := py text; Corpus.bot := bot;
     Corpus.admin := admin; Corpus.include := 0; Corpus.ns := [];
     Corpus.year := 0 |}.

Definition user_chunk : list Corpus.row :=
  [ chunk_row 101 "you fool NEWLINE_TOKEN" 0 0;
    chunk_row 102 "skipped by the draw" 0 0;
    chunk_row 103 "a bot wrote this" 1 0;
    chunk_row 104 "skipped by the draw" 0 0;
    chunk_row 105 "welcome" 0 0 ].

Definition article_chunk : list Corpus.row :=
  [ chunk_row 201 "an admin wrote this" 0 1;
    chunk_row 202 "sources please" 0 0;
    chunk_row 203 "skipped by the draw" 0 0;
    chunk_row 204 "see the talk page" 0 0 ].

(** The files directly below [top]. *)
Definition listing (fs : gmap str str) (top : str) : list str :=
  omap (λ p, if Str.startswith (top ++ py "/") p
             then Some (drop (length top + 1) p) else None)
       (map fst (map_to_list fs)).

Definition served (url : str) : option str :=
  if decide (url = Url.ANNOTATED_COMMENTS_URL) then Some (py "comments table")
  else if decide (url = Url.ANNOTATIONS_URL) then Some (py "annotations table")
  else if decide (url = Url.USER_TALK_CORPUS_2004_URL) then Some (py "user archive")
  else if decide (url = Url.ARTICLE_TALK_CORPUS_2004_URL) then Some (py "article archive")
  else None.

Definition unpack (archive : str) : option (list (str * str)) :=
  if decide (archive = py "user archive")
  then Some [(py "comments_user_2004/chunk_0.tsv", py "user chunk");
             (py "comments_user_2004/README", py "not a chunk")]
  else if decide (archive = py "article archive")
  then Some [(py "comments_article_2004/chunk_0.tsv", py "article chunk")]
  else None.

Definition host : Host :=
  {| http_get := served;
     tar_members := unpack;
     os_walk := λ fs top, [(top, [], listing fs top)];
     parse_comments := λ body,
       if decide (body = py "comments table") then Some comments else None;
     parse_annotations := λ body,
       if decide (body = py "annotations table") then Some annotations else None;
     parse_chunk := λ body,
       if decide (body = py "user chunk") then Some user_chunk
       else if decide (body = py "article chunk") then Some article_chunk
       else None;
     RNG := nat;
     bernoulli_draw := λ _ n, (Nat.even n, S n) |}.

(** The comments table as cell 9 leaves it. *)
Definition labelled : list Comment.row :=
  Clean.cell9 (cell8 comments (cell7 annotations)).

(** The pipeline cell 15 leaves behind. *)
Definition trained : @FittedPipeline sklearn :=
  @fitted_on sklearn scorer labelled.

(** A machine with no files yet. *)
Definition fresh : @World host := @Build_World host ∅ 0 [].

(** A machine on which the corpus has been downloaded and unpacked. *)
Definition unpacked : @World host :=
  (@cell21 host fresh).2.

(** The corpus sample cell 23 draws on that machine. *)
Definition corpus : list Corpus.row :=
  default [] (@cell23 host unpacked).1.


End Demo.

(** * Theorems *)

(** ** Facts about [str.replace] *)

Section ReplaceFacts.

Import Str.

Lemma startswith_spec (p s : str) :
  startswith p s = true ↔ ∃ r, s = p ++ r.
Proof.
  revert s; induction p as [|a p IH]; intros s; simpl.
  - split; [intros _; by exists s | done].
  - destruct s as [|b s].
    + split; [done | intros [r Hr]; discriminate].
    + destruct (decide (a = b)) as [->|Hne].
      * rewrite IH. split; intros [r Hr]; exists r; simpl in *; congruence.
      * split; [done | intros [r Hr]; simpl in Hr; congruence].
Qed.


Lemma startswith_drop (p s : str) :
  startswith p s = true → s = p ++ drop (length p) s.
Proof.
  intros [r ->]%startswith_spec. by rewrite drop_app_length.
Qed.

Lemma replace_scan_skip (old new : str) (k : nat) (s : str) :
  replace_scan old new k s = replace_scan old new 0 (drop k s).
Proof.
  revert k; induction s as [|c t IH]; intros [|k]; simpl; done.
Qed.

Lemma replace_scan_hit (old new s : str) :
  old ≠ [] → startswith old s = true →
  replace_scan old new 0 s = new ++ replace_scan old new 0 (drop (length old) s).
Proof.
  intros Hold Hs. destruct s as [|c t].
  - destruct old; [done | discriminate].
  - cbn [replace_scan]. rewrite Hs. f_equal.
    rewrite replace_scan_skip. f_equal.
    destruct old as [|a old]; [done|]. simpl. by rewrite Nat.sub_0_r.
Qed.

Lemma replace_scan_miss (old new : str) (c : ascii) (t : str) :
  startswith old (c :: t) = false →
  replace_scan old new 0 (c :: t) = c :: replace_scan old new 0 t.
Proof. intros Hs. cbn [replace_scan]. by rewrite Hs. Qed.

Lemma contains_occurs (old s : str) : contains old s = true ↔ occurs old s.
Proof.
  induction s as [|c t IH]; simpl.
  - rewrite orb_false_r, startswith_spec. split.
    + intros [r Hr]. by exists [], r.
    + intros (l & r & Hlr). destruct l; [by exists r|discriminate].
  - rewrite orb_true_iff, IH, startswith_spec. split.
    + intros [[r Hr]|(l & r & Hlr)].
      * by exists [], r.
      * exists (c :: l), r. by rewrite Hlr.
    + intros (l & r & Hlr). destruct l as [|c' l].
      * left. by exists r.
      * right. exists l, r. simpl in Hlr. congruence.
Qed.

Lemma occurs_dec (old s : str) : {occurs old s} + {¬ occurs old s}.
Proof.
  destruct (contains old s) eqn:E.
  - left. by apply contains_occurs.
  - right. intros H%contains_occurs. congruence.
Defined.

Lemma not_occurs_cons (old : str) (c : ascii) (t : str) :
  ¬ occurs old (c :: t) → startswith old (c :: t) = false ∧ ¬ occurs old t.
Proof.
  intros Hno. split.
  - destruct (startswith old (c :: t)) eqn:E; [|done].
    exfalso. apply Hno, contains_occurs. simpl. by rewrite E.
  - intros (l & r & ->). apply Hno. by exists (c :: l), r.
Qed.

(** A string in which [old] does not occur is left as it is. *)
Lemma replace_scan_absent (old new s : str) :
  ¬ occurs old s → replace_scan old new 0 s = s.
Proof.
  induction s as [|c t IH]; [done|].
  intros [Hs Ht]%not_occurs_cons.
  rewrite replace_scan_miss by done. f_equal. by apply IH.
Qed.



Lemma contains_drop (p s : str) (k : nat) :
  contains p (drop k s) = true → contains p s = true.
Proof.
  rewrite !contains_occurs. intros (l & r & Hlr).
  exists (take k s ++ l), r. by rewrite <- app_assoc, <- Hlr, take_drop.
Qed.

(** Replacing by a single character that a text [p] does not contain
    creates no new start of [p] ... *)
Lemma replace_scan_startswith (old : str) (c : ascii) (p : str) :
  old ≠ [] → c ∉ p →
  ∀ s, startswith p (replace_scan old [c] 0 s) = true → startswith p s = true.
Proof.
  intros Hold. induction p as [|a p IH]; intros Hc s; [done|].
  apply not_elem_of_cons in Hc as [Hac Hc].
  destruct s as [|x t]; [done|].
  destruct (startswith old (x :: t)) eqn:E.
  - rewrite replace_scan_hit by done. cbn [app startswith].
    by rewrite decide_False by done.
  - rewrite replace_scan_miss by done. cbn [startswith].
    destruct (decide (a = x)); [|done]. by apply IH.
Qed.

(** ... and no new occurrence of [p]. *)
Lemma replace_scan_contains (old : str) (c : ascii) (p : str) :
  old ≠ [] → c ∉ p →
  ∀ n s, length s ≤ n →
    contains p (replace_scan old [c] 0 s) = true → contains p s = true.
Proof.
  intros Hold Hc. induction n as [|n IH]; intros s Hn.
  { destruct s; [done | simpl in Hn; lia]. }
  destruct s as [|x t]; [done|].
  destruct (startswith old (x :: t)) eqn:E.
  - rewrite replace_scan_hit by done. cbn [app contains].
    intros [Hp|Hp]%orb_true_iff.
    + destruct p as [|a p]; [done|].
      apply not_elem_of_cons in Hc as [Hac _].
      cbn [startswith] in Hp. by rewrite decide_False in Hp by done.
    + apply (contains_drop p (x :: t) (length old)). apply IH; [|done].
      pose proof (f_equal length (startswith_drop _ _ E)) as Hl.
      rewrite length_app in Hl.
      assert (0 < length old) by (destruct old; [done | simpl; lia]). lia.
  - intros Hp. pose proof Hp as Hp'.
    rewrite replace_scan_miss in Hp' by done. cbn [contains] in Hp'.
    apply orb_true_iff in Hp' as [Hp'|Hp'].
    + cbn [contains]. apply orb_true_iff. left.
      apply (replace_scan_startswith old c p Hold Hc).
      by rewrite replace_scan_miss.
    + cbn [contains]. apply orb_true_iff. right.
      apply IH; [simpl in Hn; lia | done].
Qed.

(** After replacing [old] by a single character that [old] does not
    contain, no occurrence of [old] is left. *)
Lemma replace_scan_removes (old : str) (c : ascii) :
  old ≠ [] → c ∉ old →
  ∀ n s, length s ≤ n → contains old (replace_scan old [c] 0 s) = false.
Proof.
  intros Hold Hc. induction n as [|n IH]; intros s Hn.
  { destruct s; [|simpl in Hn; lia]. by destruct old. }
  destruct s as [|x t]; [by destruct old|].
  destruct (startswith old (x :: t)) eqn:E.
  - rewrite replace_scan_hit by done. cbn [app contains].
    apply orb_false_iff. split.
    + destruct old as [|a old]; [done|].
      apply not_elem_of_cons in Hc as [Hac _].
      cbn [startswith]. by rewrite decide_False by done.
    + apply IH.
      pose proof (f_equal length (startswith_drop _ _ E)) as Hl.
      rewrite length_app in Hl.
      assert (0 < length old) by (destruct old; [done | simpl; lia]). lia.
  - destruct (contains old (replace_scan old [c] 0 (x :: t))) eqn:Hp; [|done].
    rewrite replace_scan_miss in Hp by done. cbn [contains] in Hp.
    apply orb_true_iff in Hp as [Hp|Hp].
    + assert (startswith old (x :: t) = true) as E'; [|congruence].
      apply (replace_scan_startswith old c old Hold Hc).
      by rewrite replace_scan_miss.
    + rewrite IH in Hp; [done | simpl in Hn; lia].
Qed.

Lemma replace_absent (old new s : str) :
  ¬ occurs old s → replace old new s = s.
Proof.
  intros Hno. destruct old as [|a old].
  - exfalso. apply Hno. by exists [], s.
  - by apply replace_scan_absent.
Qed.

(** Replacing by something no longer than the pattern never lengthens. *)
Lemma replace_scan_length_le (old new : str) :
  old ≠ [] → length new ≤ length old →
  ∀ n s, length s ≤ n → length (replace_scan old new 0 s) ≤ length s.
Proof.
  intros Hold Hlen. induction n as [|n IH]; intros s Hn.
  - destruct s; simpl in *; [done | lia].
  - destruct s as [|c t]; [done|].
    destruct (startswith old (c :: t)) eqn:E.
    + rewrite replace_scan_hit by done.
      pose proof (f_equal length (startswith_drop _ _ E)) as Hl.
      rewrite length_app in Hl.
      assert (0 < length old) by (destruct old; [done | simpl; lia]).
      rewrite length_app.
      specialize (IH (drop (length old) (c :: t))). lia.
    + rewrite replace_scan_miss by done. simpl in *.
      specialize (IH t). lia.
Qed.

(** ... and shortens as soon as the pattern occurs and is longer than its
    replacement. *)
Lemma replace_scan_length_lt (old new : str) :
  length new < length old →
  ∀ n s, length s ≤ n → occurs old s →
    length (replace_scan old new 0 s) < length s.
Proof.
  intros Hlen.
  assert (old ≠ []) as Hold by (destruct old; [simpl in Hlen; lia | done]).
  induction n as [|n IH]; intros s Hn Hocc.
  - destruct s; [|simpl in Hn; lia].
    destruct Hocc as (l & r & Hlr). destruct l, old; try done.
  - destruct s as [|c t].
    { destruct Hocc as (l & r & Hlr). destruct l, old; try done. }
    destruct (startswith old (c :: t)) eqn:E.
    + rewrite replace_scan_hit by done.
      pose proof (f_equal length (startswith_drop _ _ E)) as Hl.
      rewrite length_app in Hl.
      rewrite length_app.
      pose proof (replace_scan_length_le old new Hold ltac:(lia) _
                    (drop (length old) (c :: t)) (le_n _)).
      lia.
    + rewrite replace_scan_miss by done. simpl.
      assert (occurs old t) as Ht.
      { destruct Hocc as (l & r & Hlr). destruct l as [|c' l].
        - rewrite (proj2 (startswith_spec old (c :: t))) in E; [done | by exists r].
        - exists l, r. simpl in Hlr. congruence. }
      specialize (IH t). simpl in Hn. specialize (IH ltac:(lia) Ht). lia.
Qed.

Lemma replace_length_le (old new s : str) :
  old ≠ [] → length new ≤ length old →
  length (replace old new s) ≤ length s.
Proof.
  intros Hold Hlen. destruct old as [|a old]; [done|].
  by apply (replace_scan_length_le (a :: old) new Hold Hlen (length s)).
Qed.

Lemma replace_length_lt (old new s : str) :
  length new < length old → occurs old s →
  length (replace old new s) < length s.
Proof.
  intros Hlen Hocc. destruct old as [|a old]; [simpl in Hlen; lia|].
  by apply (replace_scan_length_lt (a :: old) new Hlen (length s)).
Qed.

(** For a pattern longer than its replacement, the strings that [replace]
    leaves alone are exactly those without an occurrence. *)
Lemma replace_fixed_iff (old new s : str) :
  length new < length old →
  replace old new s = s ↔ ¬ occurs old s.
Proof.
  intros Hlen. split.
  - intros Heq Hocc. pose proof (replace_length_lt _ _ _ Hlen Hocc) as Hlt.
    rewrite Heq in Hlt. lia.
  - apply replace_absent.
Qed.

End ReplaceFacts.

(** ** Facts about the cleaning rules *)

Section CleaningFacts.

Import Str Clean.

Lemma rules_shrinking : shrinking rules.
Proof. unfold shrinking, rules. repeat constructor; vm_compute; lia. Qed.

Lemma apply_rules_cons (r : str * str) (rs : list (str * str)) (x : str) :
  apply_rules (r :: rs) x = apply_rules rs (replace r.1 r.2 x).
Proof. done. Qed.

Lemma apply_rules_length (rs : list (str * str)) :
  shrinking rs → ∀ x, length (apply_rules rs x) ≤ length x.
Proof.
  induction 1 as [|[old new] rs Hr _ IH]; intros x; [done|].
  rewrite apply_rules_cons. simpl in *.
  etrans; [apply IH|].
  apply replace_length_le; [|lia].
  destruct old; [simpl in Hr; lia | done].
Qed.

(** A list of shrinking rules leaves a string alone exactly when none of
    its patterns occurs in it. *)
Lemma apply_rules_fixed_iff (rs : list (str * str)) :
  shrinking rs →
  ∀ x, apply_rules rs x = x ↔ free_of (map fst rs) x.
Proof.
  unfold free_of.
  induction 1 as [|[old new] rs Hr Hrs IH]; intros x.
  - split; [constructor | done].
  - rewrite apply_rules_cons. simpl in *. rewrite Forall_cons. split.
    + intros Heq.
      pose proof (apply_rules_length rs Hrs (replace old new x)) as H1.
      pose proof (replace_length_le old new x) as H2.
      assert (old ≠ []) as Hold by (destruct old; [simpl in Hr; lia | done]).
      specialize (H2 Hold ltac:(lia)).
      rewrite Heq in H1.
      assert (¬ occurs old x) as Hno.
      { intros Hocc. pose proof (replace_length_lt old new x Hr Hocc). lia. }
      split; [done|].
      rewrite (replace_absent old new x Hno) in Heq. by apply IH.
    + intros [Hno Hfree].
      rewrite (replace_absent old new x Hno). by apply IH.
Qed.

Lemma clean_comment_rules (x : str) : clean_comment x = apply_rules rules x.
Proof. done. Qed.

Lemma clean_comment_after_corpus (x : str) :
  clean_comment x = apply_rules (drop 2 rules) (clean_corpus_comment x).
Proof. done. Qed.

Lemma cell9_map (comments : list Comment.row) :
  cell9 comments = apply_comment clean_comment comments.
Proof.
  unfold cell9, apply_comment. rewrite !map_map. done.
Qed.

Lemma cell24_clean_map (corpus : list Corpus.row) :
  cell24_clean corpus = map (Corpus.set_comment clean_corpus_comment) corpus.
Proof.
  unfold cell24_clean. rewrite map_map. done.
Qed.

(** X1. The corpus cleaning of cell 24 is idempotent: both of its rules put
    a space where they match, and no space occurs in either pattern, so
    neither rule can complete a pattern. *)
Lemma clean_corpus_comment_idempotent (x : str) :
  clean_corpus_comment (clean_corpus_comment x) = clean_corpus_comment x.
Proof.
  assert (ascii_of_nat 32 ∉ NEWLINE_TOKEN) as Hn.
  { intros Hin%list_elem_of_In. vm_compute in Hin. intuition discriminate. }
  assert (ascii_of_nat 32 ∉ TAB_TOKEN) as Ht.
  { intros Hin%list_elem_of_In. vm_compute in Hin. intuition discriminate. }
  apply (apply_rules_fixed_iff (take 2 rules)).
  { unfold shrinking. apply Forall_take, rules_shrinking. }
  unfold free_of. cbn [take rules map fst].
  assert (contains TAB_TOKEN (clean_corpus_comment x) = false) as Htab.
  { apply (replace_scan_removes TAB_TOKEN (ascii_of_nat 32) ltac:(done) Ht
             (length (rule1 x)) (rule1 x) (le_n _)). }
  assert (contains NEWLINE_TOKEN (rule1 x) = false) as Hnl.
  { apply (replace_scan_removes NEWLINE_TOKEN (ascii_of_nat 32) ltac:(done) Hn
             (length x) x (le_n _)). }
  repeat constructor.
  - intros Hocc%contains_occurs.
    apply (replace_scan_contains TAB_TOKEN (ascii_of_nat 32) NEWLINE_TOKEN
             ltac:(done) Hn (length (rule1 x)) (rule1 x) (le_n _)) in Hocc.
    congruence.
  - intros Hocc%contains_occurs. congruence.
Qed.

Global Instance free_of_dec (patterns : list str) (x : str) :
  Decision (free_of patterns x).
Proof.
  unfold free_of. apply Forall_dec. intros old.
  destruct (occurs_dec old x); [right | left]; tauto.
Defined.



(** C9, as the code has it.  Cleaning a cleaned comment changes nothing
    exactly when the cleaned comment contains none of the five texts; a rule
    that deletes or shortens text can bring the two halves of a pattern
    together, and then a second pass removes what the first pass left. *)
Theorem clean_twice_iff (x : str) :
  clean_comment (clean_comment x) = clean_comment x ↔
  free_of literals (clean_comment x).
Proof.
  rewrite (clean_comment_rules (clean_comment x)).
  apply (apply_rules_fixed_iff rules rules_shrinking).
Qed.

(** X2. How far the corpus cleaning is from the training cleaning.  Cell 24
    cleans every corpus comment with the first two rules only, and the two
    cleanings agree on a comment exactly when none of the three remaining
    texts occurs in the comment cleaned by the first two rules. *)
Theorem corpus_cleaning_two_rules (corpus : list Corpus.row) (x : str) :
  cell24_clean corpus =
    map (Corpus.set_comment (λ x,
           replace (py "TAB_TOKEN") (py " ")
             (replace (py "NEWLINE_TOKEN") (py " ") x))) corpus
  ∧ (clean_comment x = clean_corpus_comment x ↔
     free_of [PUNCT; HTTP; DIGIT] (clean_corpus_comment x)).
Proof.
  split; [apply cell24_clean_map|].
  rewrite clean_comment_after_corpus.
  apply (apply_rules_fixed_iff (drop 2 rules)).
  unfold shrinking. apply Forall_drop, rules_shrinking.
Qed.

End CleaningFacts.

(** ** Facts about the majority labels *)

Section LabelFacts.

Lemma Qgt_bool_iff (x y : Q) : Qgt_bool x y = true ↔ (y < x)%Q.
Proof.
  unfold Qgt_bool. rewrite negb_true_iff. split.
  - intros Hle. apply Qnot_le_lt. intros Hxy%Qle_bool_iff. congruence.
  - intros Hlt. destruct (Qle_bool x y) eqn:E; [|done].
    apply Qle_bool_iff in E. exfalso. by apply (Qlt_not_le y x).
Qed.


Lemma attack_values_cons (k : Z) (a : Annotation.row) (l : list Annotation.row) :
  attack_values k (a :: l)
  = if decide (Annotation.rev_id a = k)
    then Annotation.attack a :: attack_values k l
    else attack_values k l.
Proof.
  unfold attack_values. rewrite filter_cons. by case_decide.
Qed.

(** The groups after a further batch of rows. *)
Lemma groupby_fold_lookup (annotations : list Annotation.row) (groups : gmap Z (list Q)) (k : Z) :
  foldl (λ groups a,
           <[Annotation.rev_id a :=
               default [] (groups !! Annotation.rev_id a) ++ [Annotation.attack a]]> groups)
        groups annotations !! k
  = if decide (attack_values k annotations = [])
    then groups !! k
    else Some (default [] (groups !! k) ++ attack_values k annotations).
Proof.
  revert groups. induction annotations as [|a l IH]; intros groups.
  - by rewrite decide_True.
  - cbn [foldl]. rewrite IH, attack_values_cons.
    destruct (decide (Annotation.rev_id a = k)) as [->|Hne].
    + rewrite lookup_insert_eq. cbn [default].
      rewrite (decide_False (P := _ :: _ = [])) by done.
      case_decide as Hl.
      * by rewrite Hl.
      * unfold id. by rewrite <- app_assoc.
    + by rewrite lookup_insert_ne.
Qed.

Lemma groupby_lookup (annotations : list Annotation.row) (k : Z) :
  groupby_rev_id_attack annotations !! k
  = if decide (attack_values k annotations = []) then None
    else Some (attack_values k annotations).
Proof.
  unfold groupby_rev_id_attack. rewrite groupby_fold_lookup.
  by rewrite lookup_empty.
Qed.

Lemma attack_values_present (annotations : list Annotation.row) (a : Annotation.row) :
  a ∈ annotations → attack_values (Annotation.rev_id a) annotations ≠ [].
Proof.
  intros Ha Hnil. unfold attack_values in Hnil.
  apply fmap_nil_inv in Hnil.
  assert (a ∈ filter (λ b, Annotation.rev_id b = Annotation.rev_id a) annotations) as Hin
    by (by apply list_elem_of_filter).
  rewrite Hnil in Hin. by apply not_elem_of_nil in Hin.
Qed.


End LabelFacts.

(** ** Reasoning about runs *)

Section RunFacts.
Context `{Host}.

Lemma ensures_ret {A} (a : A) (w : World) (Q : A → World → Prop) (E : World → Prop) :
  Q a w → ensures (ret a) w Q E.
Proof. done. Qed.

Lemma ensures_bind {A B} (m : Run A) (k : A → Run B) (w : World)
    (Q : B → World → Prop) (E : World → Prop) :
  ensures m w (λ a w', ensures (k a) w' Q E) E → ensures (bind m k) w Q E.
Proof.
  unfold ensures, bind. destruct (m w) as [[a|] w']; done.
Qed.

Lemma ensures_mono {A} (m : Run A) (w : World)
    (Q Q' : A → World → Prop) (E E' : World → Prop) :
  ensures m w Q E →
  (∀ a w', Q a w' → Q' a w') → (∀ w', E w' → E' w') →
  ensures m w Q' E'.
Proof.
  unfold ensures. destruct (m w) as [[a|] w']; auto.
Qed.

Lemma ensures_lift {A} (o : option A) (w : World) (Q : A → World → Prop) (E : World → Prop) :
  (∀ a, o = Some a → Q a w) → (o = None → E w) → ensures (lift o) w Q E.
Proof.
  unfold ensures, lift. destruct o; auto.
Qed.

Lemma ensures_elim_some {A} (m : Run A) (w : World) (Q : A → World → Prop)
    (E : World → Prop) (a : A) (w' : World) :
  ensures m w Q E → m w = (Some a, w') → Q a w'.
Proof. unfold ensures. intros Hs Heq. by rewrite Heq in Hs. Qed.

Lemma ensures_elim {A} (m : Run A) (w : World) (P : World → Prop) :
  ensures m w (λ _, P) P → P (m w).2.
Proof. unfold ensures. by destruct (m w) as [[a|] w']. Qed.

Global Instance same_fs_refl : Reflexive same_fs.
Proof. by split. Qed.

Global Instance same_fs_trans : Transitive same_fs.
Proof. intros w1 w2 w3 [H1 H2] [H3 H4]. split; congruence. Qed.

Lemma ensures_read_csv {A} (parse : str → option A) (path : str) (w : World) :
  ensures (read_csv parse path) w
       (λ df w', w' = w ∧ files w !! path ≫= parse = Some df)
       (λ w', w' = w).
Proof.
  unfold ensures, read_csv. destruct (files w !! path ≫= parse); done.
Qed.

Lemma ensures_walk (top : str) (w : World) :
  ensures (walk top) w (λ triples w', w' = w ∧ triples = os_walk (files w) top) (λ _, False).
Proof. done. Qed.

Lemma ensures_draw (prob : Q) (w : World) :
  ensures (draw prob) w (λ x w', same_fs w w' ∧ (x = 0 ∨ x = 1)%Z) (λ _, False).
Proof.
  unfold ensures, draw. destruct (bernoulli_draw prob (rng w)) as [[] g]; simpl;
    (split; [by split | auto]).
Qed.

Lemma ensures_bernoulli_rvs (prob : Q) (n : nat) (w : World) :
  ensures (bernoulli_rvs prob n) w
       (λ xs w', same_fs w w' ∧ length xs = n ∧ Forall (λ x, x = 0 ∨ x = 1)%Z xs)
       (λ _, False).
Proof.
  revert w. induction n as [|n IH]; intros w; cbn [bernoulli_rvs].
  - apply ensures_ret. by repeat split.
  - apply ensures_bind. eapply ensures_mono; [apply ensures_draw| |done].
    intros x w1 [Hfs Hx]. apply ensures_bind.
    eapply ensures_mono; [apply IH| |done].
    intros xs w2 (Hfs2 & Hlen & Hxs). apply ensures_ret.
    split; [by etrans|]. split; [by simpl; f_equal|]. by constructor.
Qed.

End RunFacts.

(** ** Facts about [load_no_bot_no_admin] *)

Section LoadFacts.
Context `{Host}.

Lemma Forall_concat {A} (P : A → Prop) (ls : list (list A)) :
  Forall (Forall P) ls → Forall P (concat ls).
Proof.
  induction 1 as [|l ls Hl _ IH]; simpl; [constructor|].
  by apply Forall_app.
Qed.

(** What the filter lets through was read from a chunk file, belongs to
    neither a bot nor an admin, and drew a one. *)
Lemma query_rows_sampled (fs : gmap str str) (data_dir filename : str)
    (df : list Corpus.row) (include : list Z) :
  re_match_chunk filename = true →
  fs !! path_join data_dir filename ≫= parse_chunk = Some df →
  Forall (sampled_from fs data_dir)
         (query_no_bot_no_admin (zip_with Corpus.set_include df include)).
Proof.
  intros Hmatch Hread. apply Forall_forall. intros r Hr.
  apply list_elem_of_filter in Hr as [(Hbot & Hadm & Hinc) Hr].
  apply elem_of_zip_with in Hr as (r0 & x & -> & Hr0 & _).
  simpl in *. subst x.
  exists filename, df, r0. by repeat split.
Qed.

Lemma ensures_load_file (data_dir : str) (prob : Q) (filename : str)
    (dfs : list (list Corpus.row)) (w : World) :
  Forall (Forall (sampled_from (files w) data_dir)) dfs →
  ensures (load_file data_dir prob filename dfs) w
       (λ dfs' w', same_fs w w' ∧ Forall (Forall (sampled_from (files w) data_dir)) dfs')
       (λ w', same_fs w w').
Proof.
  intros Hdfs. unfold load_file.
  destruct (re_match_chunk filename) eqn:Hmatch; [|by apply ensures_ret].
  apply ensures_bind. eapply ensures_mono; [apply ensures_read_csv| |by intros ? ->].
  intros df w1 [-> Hread]. apply ensures_bind.
  eapply ensures_mono; [apply ensures_bernoulli_rvs| |done].
  intros include w2 (Hfs & _ & _). apply ensures_ret. split; [done|].
  apply Forall_app. split; [done|]. constructor; [|constructor].
  by eapply query_rows_sampled.
Qed.

Lemma ensures_for_filenames (data_dir : str) (prob : Q) (filenames : list str) :
  ∀ (dfs : list (list Corpus.row)) (w0 w : World),
    same_fs w0 w →
    Forall (Forall (sampled_from (files w0) data_dir)) dfs →
    ensures (for_filenames data_dir prob filenames dfs) w
         (λ dfs' w', same_fs w0 w' ∧ Forall (Forall (sampled_from (files w0) data_dir)) dfs')
         (λ w', same_fs w0 w').
Proof.
  induction filenames as [|filename rest IH]; intros dfs w0 w Hw Hdfs; cbn [for_filenames].
  - by apply ensures_ret.
  - apply ensures_bind.
    eapply ensures_mono; [apply ensures_load_file; by rewrite (proj1 Hw)| |].
    + intros dfs1 w1 [Hw1 Hdfs1]. rewrite (proj1 Hw) in Hdfs1.
      apply IH; [by etrans | done].
    + intros w1 Hw1. by etrans.
Qed.

Lemma ensures_for_walk (data_dir : str) (prob : Q) (triples : list (str * list str * list str)) :
  ∀ (dfs : list (list Corpus.row)) (w0 w : World),
    same_fs w0 w →
    Forall (Forall (sampled_from (files w0) data_dir)) dfs →
    ensures (for_walk data_dir prob triples dfs) w
         (λ dfs' w', same_fs w0 w' ∧ Forall (Forall (sampled_from (files w0) data_dir)) dfs')
         (λ w', same_fs w0 w').
Proof.
  induction triples as [|[[dirpath dirnames] filenames] rest IH];
    intros dfs w0 w Hw Hdfs; cbn [for_walk].
  - by apply ensures_ret.
  - apply ensures_bind.
    eapply ensures_mono; [by apply ensures_for_filenames| |done].
    intros dfs1 w1 [Hw1 Hdfs1]. by apply IH.
Qed.

(** The sample, and the world it leaves: no file and no write record has
    changed, and every row is a sampled chunk row with [ns] and [year] set. *)
Lemma ensures_load_no_bot_no_admin (ns : str) (year : Z) (prob : Q) (w : World) :
  ensures (load_no_bot_no_admin ns year prob) w
       (λ sample w',
          same_fs w w' ∧
          Forall (λ r, ∃ r0,
                    sampled_from (files w) (py "comments_" ++ ns ++ py "_" ++ format_d year) r0
                    ∧ r = Corpus.set_year year (Corpus.set_ns ns r0)) sample)
       (λ w', same_fs w w').
Proof.
  unfold load_no_bot_no_admin.
  apply ensures_bind. eapply ensures_mono; [apply ensures_walk| |done].
  intros triples w1 [-> _]. apply ensures_bind.
  eapply ensures_mono; [apply (ensures_for_walk _ _ _ [] w w); [done|constructor]| |done].
  intros dfs w2 [Hw2 Hdfs]. apply ensures_bind. apply ensures_lift; [|done].
  intros sample Hsample. apply ensures_ret. split; [done|].
  destruct dfs as [|df dfs]; [done|]. injection Hsample as <-.
  rewrite Forall_forall. intros r Hr.
  apply list_elem_of_fmap in Hr as (r1 & -> & Hr).
  apply list_elem_of_fmap in Hr as (r0 & -> & Hr).
  exists r0. split; [|done].
  apply Forall_concat in Hdfs. rewrite Forall_forall in Hdfs. by apply Hdfs.
Qed.

(** C8. Every row of the table [load_no_bot_no_admin(ns, year, prob)]
    returns has [bot == 0], [admin == 0], [include == 1], its [ns] column
    equal to the [ns] argument and its [year] column equal to the [year]
    argument; it is a row of one of the chunk files of the data directory
    that had [bot == 0] and [admin == 0] there, so a row that fails the
    filter is never in the sample. *)
Theorem load_no_bot_no_admin_rows (ns : str) (year : Z) (prob : Q) (w w' : World)
    (sample : list Corpus.row) (i : nat) (r : Corpus.row) :
  load_no_bot_no_admin ns year prob w = (Some sample, w') →
  sample !! i = Some r →
  Corpus.bot r = 0%Z ∧ Corpus.admin r = 0%Z ∧ Corpus.include r = 1%Z
  ∧ Corpus.ns r = ns ∧ Corpus.year r = year
  ∧ ∃ (filename : str) (df : list Corpus.row) (r0 : Corpus.row),
      re_match_chunk filename = true
      ∧ files w !! path_join (py "comments_" ++ ns ++ py "_" ++ format_d year) filename
          ≫= parse_chunk = Some df
      ∧ r0 ∈ df ∧ Corpus.bot r0 = 0%Z ∧ Corpus.admin r0 = 0%Z
      ∧ r = Corpus.set_year year (Corpus.set_ns ns (Corpus.set_include r0 1)).
Proof.
  intros Hrun Hi.
  pose proof (ensures_elim_some _ _ _ _ _ _ (ensures_load_no_bot_no_admin ns year prob w) Hrun)
    as [_ Hrows].
  rewrite Forall_forall in Hrows.
  destruct (Hrows r) as (r1 & Hr1 & ->); [by eapply list_elem_of_lookup_2|].
  destruct Hr1 as (filename & df & r0 & Hmatch & Hread & Hr0 & Hbot & Hadm & ->).
  simpl. repeat split; try done.
  by exists filename, df, r0.
Qed.

End LoadFacts.

(** ** Facts about the vectorizer and the pipelines *)

Section PipelineFacts.
Context `{Sklearn}.

Lemma hits_cons (vocabulary : gmap str nat) (j : nat) (t : str) (features : list str) :
  hits vocabulary j (t :: features)
  = if decide (vocabulary !! t = Some j)
    then S (hits vocabulary j features)
    else hits vocabulary j features.
Proof. unfold hits. rewrite filter_cons. by case_decide. Qed.

Lemma count_vocab_fold_lookup (vocabulary : gmap str nat) (features : list str) :
  ∀ (counter : gmap nat nat) (j : nat),
    foldl (λ feature_counter feature,
             match vocabulary !! feature with
             | Some feature_idx =>
                 match feature_counter !! feature_idx with
                 | None => <[feature_idx := 1]> feature_counter
                 | Some n => <[feature_idx := n + 1]> feature_counter
                 end
             | None => feature_counter
             end) counter features !! j
    = match counter !! j with
      | Some m => Some (m + hits vocabulary j features)
      | None => match hits vocabulary j features with
                | O => None
                | S n => Some (S n)
                end
      end.
Proof.
  induction features as [|t features IH]; intros counter j.
  - cbn. destruct (counter !! j); [f_equal; lia | done].
  - cbn [foldl]. rewrite IH, hits_cons. clear IH.
    destruct (vocabulary !! t) as [idx|] eqn:Ht.
    + destruct (decide (idx = j)) as [->|Hne].
      * rewrite decide_True by done.
        destruct (counter !! j) as [m|] eqn:Hc; rewrite lookup_insert_eq; f_equal; lia.
      * rewrite decide_False by congruence.
        destruct (counter !! idx); by rewrite lookup_insert_ne.
    + by rewrite decide_False.
Qed.

(** A column of the count row holds the number of hits, and is absent when
    there is none. *)
Lemma count_vocab_lookup (vocabulary : gmap str nat) (features : list str) (j : nat) :
  count_vocab vocabulary features !! j
  = match hits vocabulary j features with
    | O => None
    | S n => Some (S n)
    end.
Proof.
  unfold count_vocab. by rewrite count_vocab_fold_lookup, lookup_empty.
Qed.

Lemma hits_perm (vocabulary : gmap str nat) (j : nat) (f1 f2 : list str) :
  f1 ≡ₚ f2 → hits vocabulary j f1 = hits vocabulary j f2.
Proof. intros Hp. unfold hits. by rewrite Hp. Qed.

(** The count row depends on the multiset of features only. *)
Lemma count_vocab_perm (vocabulary : gmap str nat) (f1 f2 : list str) :
  f1 ≡ₚ f2 → count_vocab vocabulary f1 = count_vocab vocabulary f2.
Proof.
  intros Hp. apply map_eq. intros j.
  by rewrite !count_vocab_lookup, (hits_perm _ _ _ _ Hp).
Qed.

Lemma fitted_on_analyzer (final : Classifier) (comments : list Comment.row) :
  build_analyzer (vect (steps (fitted_on final comments))) = stemmed_words.
Proof. done. Qed.

Lemma count_row_perm (final : Classifier) (comments : list Comment.row) (a b : str) :
  stemmed_words a ≡ₚ stemmed_words b →
  count_row (fitted_on final comments) a = count_row (fitted_on final comments) b.
Proof.
  intros Hp. unfold count_row. rewrite fitted_on_analyzer.
  by apply count_vocab_perm.
Qed.

(** What each cell returns, in terms of the common pipeline. *)
Lemma cell11_steps_eq (final : Classifier) (comments : list Comment.row) :
  cell11_steps final comments
  = (proba ← Pipeline_predict_proba (fitted_on final comments)
               (map Comment.comment (query_split (py "test") comments));
     Some (fitted_on final comments,
           report_with (fitted_on final comments) comments (floats (column1 proba)))).
Proof. done. Qed.

Lemma cell12_steps_eq (final : Classifier) (comments : list Comment.row) :
  cell12_steps final comments = cell11_steps final comments.
Proof. done. Qed.

Lemma cell13_steps_eq (final : Classifier) (comments : list Comment.row) :
  cell13_steps final comments
  = Some (fitted_on final comments,
          report_with (fitted_on final comments) comments
            (bools (Pipeline_predict (fitted_on final comments)
                      (map Comment.comment (query_split (py "test") comments))))).
Proof. done. Qed.

Lemma cell14_steps_eq (final : Classifier) (comments : list Comment.row) :
  cell14_steps final comments = cell13_steps final comments.
Proof. done. Qed.

Lemma cell15_steps_eq (final : Classifier) (comments : list Comment.row) :
  cell15_steps final comments = cell13_steps final comments.
Proof. done. Qed.

Lemma cell11_steps_fitted (final : Classifier) (comments : list Comment.row)
    (fp : FittedPipeline) (rep : Report) :
  cell11_steps final comments = Some (fp, rep) → fp = fitted_on final comments.
Proof.
  rewrite cell11_steps_eq. intros Hrun.
  destruct (Pipeline_predict_proba _ _); simpl in Hrun; [|done].
  by injection Hrun as <- _.
Qed.

Lemma cell13_steps_fitted (final : Classifier) (comments : list Comment.row)
    (fp : FittedPipeline) (rep : Report) :
  cell13_steps final comments = Some (fp, rep) → fp = fitted_on final comments.
Proof.
  intros Hrun. pose proof (cell13_steps_eq final comments) as Heq.
  rewrite Hrun in Heq. by injection Heq as -> _.
Qed.

Lemma trained_in_notebook (final : Classifier) (comments : list Comment.row)
    (fp : FittedPipeline) (rep : Report) :
  cell11_steps final comments = Some (fp, rep)
  ∨ cell12_steps final comments = Some (fp, rep)
  ∨ cell13_steps final comments = Some (fp, rep)
  ∨ cell14_steps final comments = Some (fp, rep)
  ∨ cell15_steps final comments = Some (fp, rep) →
  fp = fitted_on final comments.
Proof.
  intros [Hrun|[Hrun|[Hrun|[Hrun|Hrun]]]].
  - by eapply cell11_steps_fitted.
  - rewrite cell12_steps_eq in Hrun. by eapply cell11_steps_fitted.
  - apply (cell13_steps_fitted _ _ _ _ Hrun).
  - rewrite cell14_steps_eq in Hrun. apply (cell13_steps_fitted _ _ _ _ Hrun).
  - rewrite cell15_steps_eq in Hrun. apply (cell13_steps_fitted _ _ _ _ Hrun).
Qed.

(** C3. Take the pipeline any of the five cells fits, with whatever last
    stage, and two batches of comments whose stemmed token sequences are
    pairwise permutations of each other.  Then the count rows the
    vectorizer extracts are the same, and so are the predicted labels and
    the predicted probabilities.  (The analyzer is a callable, so
    [ngram_range] has no effect and no feature spans two tokens.) *)
Theorem bag_of_words (final : Classifier) (comments : list Comment.row)
    (fp : FittedPipeline) (rep : Report) (X Y : list str) :
  cell11_steps final comments = Some (fp, rep)
  ∨ cell12_steps final comments = Some (fp, rep)
  ∨ cell13_steps final comments = Some (fp, rep)
  ∨ cell14_steps final comments = Some (fp, rep)
  ∨ cell15_steps final comments = Some (fp, rep) →
  Forall2 (λ a b, stemmed_words a ≡ₚ stemmed_words b) X Y →
  map (count_row fp) X = map (count_row fp) Y
  ∧ map (Pipeline_transform fp) X = map (Pipeline_transform fp) Y
  ∧ Pipeline_predict fp X = Pipeline_predict fp Y
  ∧ Pipeline_predict_proba fp X = Pipeline_predict_proba fp Y.
Proof.
  intros Hfp HXY. apply trained_in_notebook in Hfp as ->.
  assert (map (count_row (fitted_on final comments)) X
          = map (count_row (fitted_on final comments)) Y) as Hrows.
  { induction HXY as [|a b X Y Hab _ IH]; [done|].
    cbn [map]. f_equal; [by apply count_row_perm | done]. }
  assert (map (Pipeline_transform (fitted_on final comments)) X
          = map (Pipeline_transform (fitted_on final comments)) Y) as Hfeat.
  { unfold Pipeline_transform.
    rewrite <- (map_map (count_row _) (tfidf_transform _) X).
    rewrite <- (map_map (count_row _) (tfidf_transform _) Y).
    by rewrite Hrows. }
  repeat split; try done.
  - unfold Pipeline_predict.
    rewrite <- (map_map (Pipeline_transform _) (predict _ _) X).
    rewrite <- (map_map (Pipeline_transform _) (predict _ _) Y).
    by rewrite Hfeat.
  - unfold Pipeline_predict_proba.
    destruct (predict_proba _) as [proba|]; [|done]. f_equal.
    rewrite <- (map_map (Pipeline_transform _) (proba _) X).
    rewrite <- (map_map (Pipeline_transform _) (proba _) Y).
    by rewrite Hfeat.
Qed.


End PipelineFacts.

(** ** Facts about the prevalence estimate *)

Section PrevalenceFacts.
Context `{Sklearn}.

Lemma elem_of_unique (l : list str) (x : str) : x ∈ unique l ↔ x ∈ l.
Proof.
  induction l as [|y l IH]; [done|].
  cbn [unique]. rewrite !elem_of_cons, list_elem_of_filter, IH.
  destruct (decide (x = y)); intuition congruence.
Qed.

(** The sum of an indicator column counts the rows marked. *)
Lemma Qsum_indicator (l : list Corpus.scored) :
  (Qsum (map (λ r, Q_of_bool (Corpus.attack r)) l)
   == inject_Z (Z.of_nat (length (filter (λ r, Corpus.attack r = true) l))))%Q.
Proof.
  induction l as [|r l IH]; [reflexivity|].
  cbn [map Qsum foldr]. fold (Qsum (map (λ r, Q_of_bool (Corpus.attack r)) l)).
  rewrite IH, filter_cons. destruct (Corpus.attack r) eqn:Hr.
  - rewrite decide_True by done. cbn [length Q_of_bool].
    rewrite Nat2Z.inj_succ, <- Z.add_1_l, inject_Z_plus. reflexivity.
  - rewrite decide_False by done. cbn [Q_of_bool]. apply Qplus_0_l.
Qed.

(** The mean of the [attack] column over a namespace is the fraction of its
    rows that are marked. *)
Lemma Qmean_fraction (n : str) (corpus : list Corpus.scored) :
  (Qmean (map (λ r, Q_of_bool (Corpus.attack r)) (rows_of_ns n corpus))
   == inject_Z (Z.of_nat (ns_marked n corpus)) / inject_Z (Z.of_nat (ns_total n corpus)))%Q.
Proof.
  unfold Qmean, ns_marked, ns_total.
  rewrite Qsum_indicator, length_map. reflexivity.
Qed.



End PrevalenceFacts.

(** ** Facts about the writes of the notebook *)

Section FrameFacts.
Context `{Host}.

Lemma wrote_nil (w w' : World) : same_fs w w' → wrote [] w w'.
Proof.
  intros [Hf Ho]. split; [by rewrite app_nil_r|].
  intros path _ _. by rewrite Hf.
Qed.

Lemma wrote_trans (ops1 ops2 : list fs_op) (w1 w2 w3 : World) :
  wrote ops1 w1 w2 → wrote ops2 w2 w3 → wrote (ops1 ++ ops2) w1 w3.
Proof.
  intros [Ho1 Hu1] [Ho2 Hu2]. split.
  - by rewrite Ho2, Ho1, app_assoc.
  - intros path Ht Hm. by rewrite Hu2, Hu1.
Qed.

Lemma writes_within_same_fs {A} (m : Run A) :
  (∀ w, same_fs w (m w).2) → writes_within [] m.
Proof.
  intros Hm w. exists []. split; [done|]. by apply wrote_nil.
Qed.

Lemma writes_within_ret {A} (a : A) : writes_within [] (ret a).
Proof. by apply writes_within_same_fs. Qed.

Lemma writes_within_lift {A} (o : option A) : writes_within [] (lift o).
Proof. by apply writes_within_same_fs. Qed.

Lemma writes_within_read_csv {A} (parse : str → option A) (path : str) :
  writes_within [] (read_csv parse path).
Proof. by apply writes_within_same_fs. Qed.

Lemma writes_within_bind {A B} (a1 a2 : list fs_op) (m : Run A) (k : A → Run B) :
  writes_within a1 m → (∀ x, writes_within a2 (k x)) →
  writes_within (a1 ++ a2) (bind m k).
Proof.
  intros Hm Hk w. destruct (Hm w) as (ops1 & Hops1 & Hw1).
  unfold bind. destruct (m w) as [[x|] w1]; simpl in Hw1.
  - destruct (Hk x w1) as (ops2 & Hops2 & Hw2).
    exists (ops1 ++ ops2). split; [by apply sublist_app | by eapply wrote_trans].
  - exists ops1. split; [by apply sublist_inserts_r | done].
Qed.


Lemma unpack_lookup (members : list (str * str)) (path : str) :
  ∀ fs : gmap str str,
    path ∉ map fst members →
    foldl (λ fs m, <[m.1 := m.2]> fs) fs members !! path = fs !! path.
Proof.
  induction members as [|[name body] members IH]; intros fs Hp; [done|].
  cbn [foldl]. cbn [map fst] in Hp. apply not_elem_of_cons in Hp as [Hne Hp].
  rewrite IH by done. by apply lookup_insert_ne.
Qed.

Lemma writes_within_tar_xzf (archive : str) :
  writes_within [tar_xzf archive] (os_system_tar_xzf archive).
Proof.
  intros w. unfold os_system_tar_xzf.
  destruct (files w !! archive) as [content|] eqn:Hc; simpl;
    [destruct (tar_members content) as [members|] eqn:Hm; simpl|].
  - exists [tar_xzf archive]. split; [done|]. split; [done|].
    intros path _ Hnm. simpl. apply unpack_lookup.
    intros Hin. apply Hnm. by exists content, members.
  - exists []. split; [apply sublist_nil_l | by apply wrote_nil].
  - exists []. split; [apply sublist_nil_l | by apply wrote_nil].
Qed.

Lemma writes_within_load (ns : str) (year : Z) (prob : Q) :
  writes_within [] (load_no_bot_no_admin ns year prob).
Proof.
  apply writes_within_same_fs. intros w.
  apply (ensures_elim _ w (same_fs w)).
  eapply ensures_mono; [apply ensures_load_no_bot_no_admin| |done].
  by intros sample w' [Hfs _].
Qed.

Lemma writes_within_cell23 : writes_within [] cell23.
Proof.
  unfold cell23.
  apply (writes_within_bind [] []); [apply writes_within_load|]. intros corpus_user.
  apply (writes_within_bind [] []); [apply writes_within_load|]. intros corpus_article.
  apply writes_within_lift.
Qed.

Lemma writes_within_cell5 `{Sklearn} : writes_within [] cell5.
Proof.
  unfold cell5.
  apply (writes_within_bind [] []); [apply writes_within_read_csv|]. intros comments.
  apply (writes_within_bind [] []); [apply writes_within_read_csv|]. intros annotations.
  apply writes_within_ret.
Qed.





End FrameFacts.

(** ** Further properties of the cleaning *)

Section CleaningMore.

Import Str Clean.

Lemma apply_rules_same_length (rs : list (str * str)) :
  shrinking rs →
  ∀ x, length (apply_rules rs x) = length x → apply_rules rs x = x.
Proof.
  induction 1 as [|[old new] rs Hr Hrs IH]; intros x Hlen; [done|].
  rewrite apply_rules_cons in Hlen |- *. simpl in *.
  assert (old ≠ []) as Hold by (destruct old; [simpl in Hr; lia | done]).
  pose proof (apply_rules_length rs Hrs (replace old new x)) as H1.
  pose proof (replace_length_le old new x Hold ltac:(lia)) as H2.
  assert (¬ occurs old x) as Hno.
  { intros Hocc. pose proof (replace_length_lt old new x Hr Hocc). lia. }
  rewrite (replace_absent old new x Hno) in Hlen |- *. by apply IH.
Qed.

(** X3. The cleaning of cell 9 never lengthens a comment.  It leaves a
    comment as it is exactly when none of the five texts occurs in it, and
    it makes every other comment strictly shorter. *)
Theorem clean_comment_shortens (x : str) :
  length (clean_comment x) ≤ length x
  ∧ (clean_comment x = x ↔ free_of literals x)
  ∧ (¬ free_of literals x → length (clean_comment x) < length x).
Proof.
  rewrite clean_comment_rules.
  pose proof (apply_rules_length rules rules_shrinking x) as Hle.
  pose proof (apply_rules_fixed_iff rules rules_shrinking x) as Hfix.
  split; [done|]. split; [done|].
  intros Hno.
  destruct (decide (length (apply_rules rules x) = length x)) as [Heq|Hne]; [|lia].
  exfalso. apply Hno, Hfix. by apply (apply_rules_same_length rules rules_shrinking).
Qed.

Lemma query_split_fmap (f : str → str) (name : str) (comments : list Comment.row) :
  query_split name (map (Comment.set_comment f) comments)
  = map (Comment.set_comment f) (query_split name comments).
Proof.
  unfold query_split. induction comments as [|r comments IH]; [done|].
  cbn [map]. rewrite !filter_cons. cbn [Comment.set_comment Comment.split].
  case_decide; cbn [map]; by rewrite IH.
Qed.

(** X4. Cell 9 rewrites the comment column and nothing else: the table keeps
    its rows in their order, every other column of every row keeps its
    value, and so selecting a split after the cleaning gives the cleaned
    rows of the split. *)
Theorem cell9_only_comment (comments : list Comment.row) :
  length (cell9 comments) = length comments
  ∧ (∀ (i : nat) (r : Comment.row),
       comments !! i = Some r →
       ∃ r' : Comment.row,
         cell9 comments !! i = Some r'
         ∧ Comment.comment r' = clean_comment (Comment.comment r)
         ∧ Comment.rev_id r' = Comment.rev_id r
         ∧ Comment.year r' = Comment.year r
         ∧ Comment.logged_in r' = Comment.logged_in r
         ∧ Comment.ns r' = Comment.ns r
         ∧ Comment.sample r' = Comment.sample r
         ∧ Comment.split r' = Comment.split r
         ∧ Comment.attack r' = Comment.attack r)
  ∧ ∀ name : str,
      query_split name (cell9 comments) = cell9 (query_split name comments).
Proof.
  rewrite cell9_map. unfold apply_comment. split; [by rewrite length_map|]. split.
  - intros i r Hi. exists (Comment.set_comment clean_comment r).
    change (map ?f ?l) with (f <$> l). rewrite list_lookup_fmap, Hi. done.
  - intros name. rewrite cell9_map. unfold apply_comment. apply query_split_fmap.
Qed.

End CleaningMore.

(** ** Further properties of the labels *)

Section LabelMore.

Lemma Qsum_votes (vals : list Q) :
  Forall is_vote vals →
  (Qsum vals == inject_Z (Z.of_nat (length (filter (λ v, Qeq_bool v 1 = true) vals))))%Q.
Proof.
  induction 1 as [|v vals Hv _ IH]; [reflexivity|].
  cbn [Qsum foldr]. fold (Qsum vals). rewrite IH, filter_cons.
  destruct Hv as [-> | ->].
  - rewrite decide_False by done. apply Qplus_0_l.
  - rewrite decide_True by done. cbn [length].
    rewrite Nat2Z.inj_succ, <- Z.add_1_l, inject_Z_plus. reflexivity.
Qed.

Lemma Qhalf_lt_fraction (a n : nat) :
  0 < n →
  (1 # 2 < inject_Z (Z.of_nat a) / inject_Z (Z.of_nat n))%Q ↔ n < 2 * a.
Proof.
  intros Hn. destruct n as [|m]; [lia|].
  replace (Z.of_nat (S m)) with (Z.pos (Pos.of_succ_nat m)) by lia.
  rewrite <- Qmake_Qdiv. unfold Qlt. simpl. lia.
Qed.

Lemma cell7_lookup (annotations : list Annotation.row) (rev : Z) :
  cell7 annotations !! rev
  = if decide (attack_values rev annotations = []) then None
    else Some (Qgt_bool (Qmean (attack_values rev annotations)) (1 # 2)).
Proof.
  unfold cell7. rewrite lookup_fmap, groupby_lookup. by case_decide.
Qed.

(** X5. The label of a revision is a strict majority vote: when every
    annotator's [attack] value is [0.0] or [1.0], the label is [True]
    exactly when more than half of the revision's annotators saw an
    attack. *)
Theorem majority_of_votes (annotations : list Annotation.row) (rev : Z) (label : bool) :
  cell7 annotations !! rev = Some label →
  Forall is_vote (attack_values rev annotations) →
  label = true
  ↔ length (attack_values rev annotations) < 2 * votes_for rev annotations.
Proof.
  rewrite cell7_lookup. case_decide as Hnil; [done|]. intros [= <-] Hvotes.
  rewrite Qgt_bool_iff. unfold Qmean, votes_for.
  rewrite (Qsum_votes _ Hvotes). apply Qhalf_lt_fraction.
  destruct (attack_values rev annotations); [done | simpl; lia].
Qed.

(** X6. A comment whose [rev_id] has no annotation gets no label: cell 8
    leaves NaN in its [attack] column, and the row stays in the table. *)
Theorem unlabelled_comment (annotations : list Annotation.row)
    (comments : list Comment.row) (i : nat) (r : Comment.row) :
  comments !! i = Some r →
  Forall (λ a, Annotation.rev_id a ≠ Comment.rev_id r) annotations →
  cell8 comments (cell7 annotations) !! i = Some (Comment.set_attack None r)
  ∧ length (cell8 comments (cell7 annotations)) = length comments.
Proof.
  intros Hi Hnone. split; [|apply length_map].
  unfold cell8. change (map ?f ?l) with (f <$> l).
  rewrite list_lookup_fmap, Hi. cbn. do 2 f_equal.
  rewrite cell7_lookup, decide_True; [done|].
  induction Hnone as [|a annotations Ha _ IH]; [done|].
  by rewrite attack_values_cons, decide_False.
Qed.

Lemma dom_cell7 (annotations : list Annotation.row) :
  dom (cell7 annotations) =@{gset Z} list_to_set (map Annotation.rev_id annotations).
Proof.
  apply set_eq. intros k.
  rewrite elem_of_dom, cell7_lookup, elem_of_list_to_set.
  change (map ?f ?l) with (f <$> l). rewrite list_elem_of_fmap. split.
  - case_decide as Hnil; [by intros [? ?]|]. intros _.
    unfold attack_values in Hnil.
    destruct (filter (λ a, Annotation.rev_id a = k) annotations) as [|a l] eqn:Hf; [done|].
    assert (a ∈ filter (λ a, Annotation.rev_id a = k) annotations) as Ha
      by (rewrite Hf; apply list_elem_of_here).
    apply list_elem_of_filter in Ha as [Hk Ha]. by exists a.
  - intros (a & -> & Ha). rewrite decide_False; [by eexists|].
    by apply attack_values_present.
Qed.

(** X7. There is one label per annotated revision: the number of labels
    cell 7 computes is the number of distinct [rev_id]s cell 6 counts. *)
Theorem labels_count (annotations : list Annotation.row) :
  size (cell7 annotations) = cell6 annotations.
Proof.
  unfold cell6.
  rewrite <- (size_dom (D := gset Z)), dom_cell7.
  rewrite <- (size_list_to_set (C := gset Z) (remove_dups _)) by apply NoDup_remove_dups.
  f_equal. apply set_eq. intros k.
  by rewrite !elem_of_list_to_set, elem_of_remove_dups.
Qed.



End LabelMore.

(** ** Further properties of [load_no_bot_no_admin] *)

Section FileFilter.

Import Str.



End FileFilter.

Section LoadMore.
Context `{Host}.






(** X11. [load_no_bot_no_admin] only reads: whether it returns or raises,
    every file and the record of writes are afterwards what they were
    before. *)
Theorem load_no_bot_no_admin_reads_only (ns : str) (year : Z) (prob : Q) (w : World) :
  files (load_no_bot_no_admin ns year prob w).2 = files w
  ∧ oplog (load_no_bot_no_admin ns year prob w).2 = oplog w.
Proof.
  apply (ensures_elim _ w (same_fs w)).
  eapply ensures_mono; [apply ensures_load_no_bot_no_admin| |done].
  by intros sample w' [Hfs _].
Qed.



End LoadMore.

(** ** Further properties of the plot and of the vectorizer *)

Section PlotMore.

Lemma NoDup_unique (l : list str) : NoDup (unique l).
Proof.
  induction l as [|x l IH]; cbn [unique]; [constructor|].
  apply NoDup_cons. split.
  - intros [Hne _]%list_elem_of_filter. done.
  - by apply NoDup_filter.
Qed.

Lemma Qfraction_bounds (a n : nat) :
  0 < n → a ≤ n →
  (0 <= inject_Z (Z.of_nat a) / inject_Z (Z.of_nat n))%Q
  ∧ (inject_Z (Z.of_nat a) / inject_Z (Z.of_nat n) <= 1)%Q.
Proof.
  intros Hn Han. destruct n as [|m]; [lia|].
  replace (Z.of_nat (S m)) with (Z.pos (Pos.of_succ_nat m)) by lia.
  rewrite <- Qmake_Qdiv. unfold Qle. simpl. lia.
Qed.

(** X13. The plot of cell 25 has exactly one point for every namespace
    that occurs in the corpus, and every point lies between 0 and 1. *)
Theorem cell25_points (corpus : list Corpus.scored) :
  NoDup (map fst (cell25 corpus))
  ∧ (∀ n : str,
       n ∈ map fst (cell25 corpus)
       ↔ ∃ r : Corpus.scored, r ∈ corpus ∧ Corpus.ns (Corpus.base r) = n)
  ∧ ∀ (n : str) (estimate : Q),
      (n, estimate) ∈ cell25 corpus → (0 <= estimate)%Q ∧ (estimate <= 1)%Q.
Proof.
  assert (map fst (cell25 corpus)
          = unique (map (λ r, Corpus.ns (Corpus.base r)) corpus)) as Hfst.
  { unfold cell25. rewrite map_map. apply map_id. }
  rewrite Hfst. split; [apply NoDup_unique|]. split.
  - intros n. rewrite elem_of_unique.
    change (map ?f ?l) with (f <$> l). rewrite list_elem_of_fmap.
    split; intros (r & Hr1 & Hr2); exists r; by split.
  - intros n estimate Hin. unfold cell25 in Hin.
    change (map ?f ?l) with (f <$> l) in Hin.
    apply list_elem_of_fmap in Hin as (n' & [= -> ->] & Hn).
    apply elem_of_unique, list_elem_of_fmap in Hn as (r & Hr & Hin).
    rewrite Qmean_fraction. apply Qfraction_bounds.
    + unfold ns_total, rows_of_ns.
      assert (r ∈ filter (λ r0, Corpus.ns (Corpus.base r0) = n') corpus) as Hf
        by (by apply list_elem_of_filter).
      destruct (filter _ corpus); [by apply elem_of_nil in Hf | simpl; lia].
    + unfold ns_marked, ns_total. apply length_filter.
Qed.

End PlotMore.

Section VectorizerMore.
Context `{Sklearn}.

Lemma hits_in_vocabulary (vocabulary : gmap str nat) (j : nat) (tokens : list str) :
  hits vocabulary j (filter (λ t, is_Some (vocabulary !! t)) tokens)
  = hits vocabulary j tokens.
Proof.
  induction tokens as [|t tokens IH]; [done|].
  rewrite filter_cons. destruct (vocabulary !! t) as [idx|] eqn:Ht.
  - rewrite decide_True by (by eexists). rewrite !hits_cons, IH. done.
  - rewrite decide_False by (by intros [? ?]).
    rewrite hits_cons, decide_False by congruence. done.
Qed.

Lemma count_vocab_in_vocabulary (vocabulary : gmap str nat) (tokens : list str) :
  count_vocab vocabulary (filter (λ t, is_Some (vocabulary !! t)) tokens)
  = count_vocab vocabulary tokens.
Proof.
  apply map_eq. intros j. by rewrite !count_vocab_lookup, hits_in_vocabulary.
Qed.

(** X14. Words the fitted vectorizer has no column for are ignored: two
    comments whose stemmed tokens agree, up to order, once the tokens
    outside the vocabulary are dropped get the same count row, the same
    predicted label and the same predicted probabilities. *)
Theorem unknown_words_ignored (final : Classifier) (comments : list Comment.row)
    (a b : str) :
  let fp := fitted_on final comments in
  in_vocabulary fp (stemmed_words a) ≡ₚ in_vocabulary fp (stemmed_words b) →
  count_row fp a = count_row fp b
  ∧ Pipeline_predict fp [a] = Pipeline_predict fp [b]
  ∧ Pipeline_predict_proba fp [a] = Pipeline_predict_proba fp [b].
Proof.
  cbv zeta. intros Hp.
  assert (count_row (fitted_on final comments) a
          = count_row (fitted_on final comments) b) as Hrow.
  { unfold count_row. rewrite fitted_on_analyzer.
    rewrite <- (count_vocab_in_vocabulary _ (stemmed_words a)).
    rewrite <- (count_vocab_in_vocabulary _ (stemmed_words b)).
    by apply count_vocab_perm. }
  split; [done|].
  unfold Pipeline_predict, Pipeline_predict_proba, Pipeline_transform.
  cbn [map]. rewrite Hrow. done.
Qed.

End VectorizerMore.

(** ** Further properties of the five runs *)

Section RunsMore.
Context `{Sklearn}.





End RunsMore.

(** ** Further properties of the notebook as a whole *)

Section NotebookMore.
Context `{Sklearn} `{!Estimators} `{Host}.

(** X15. The tables cell 5 reads are the ones cell 4 has just downloaded,
    whatever was in the working directory before: the comments table is
    parsed from the body served at the comments URL and the annotations
    table from the body served at the annotations URL. *)
Theorem tables_read_are_downloaded (w : World) (body_comments body_annotations : str) :
  http_get Url.ANNOTATED_COMMENTS_URL = Some body_comments →
  http_get Url.ANNOTATIONS_URL = Some body_annotations →
  (bind cell4 (λ _, cell5) w).1
  = (comments ← parse_comments body_comments;
     annotations ← parse_annotations body_annotations;
     Some (comments, annotations)).
Proof.
  intros Hc Ha. unfold cell4, cell5, bind, download_file, read_csv, ret.
  rewrite Hc, Ha. cbn [files fst snd].
  rewrite lookup_insert_ne by done. rewrite lookup_insert_eq. cbn [mbind option_bind].
  destruct (parse_comments body_comments) as [comments|]; [|done].
  rewrite lookup_insert_eq. cbn [mbind option_bind].
  by destruct (parse_annotations body_annotations).
Qed.

Lemma logs_mono {A} (P P' : list fs_op → Prop) (m : Run A) :
  (∀ ops, P ops → P' ops) → logs P m → logs P' m.
Proof.
  intros HP Hm w Hsome. destruct (Hm w Hsome) as (ops & Hlog & Hops). eauto.
Qed.

Lemma logs_bind {A B} (P1 P2 : list fs_op → Prop) (m : Run A) (k : A → Run B) :
  logs P1 m → (∀ x, logs P2 (k x)) →
  logs (λ ops, ∃ o1 o2, ops = o1 ++ o2 ∧ P1 o1 ∧ P2 o2) (bind m k).
Proof.
  intros Hm Hk w Hsome. unfold bind in *. specialize (Hm w).
  destruct (m w) as [[x|] w1]; [|by destruct Hsome].
  destruct Hm as (o1 & Hl1 & Ho1); [by eexists|].
  destruct (Hk x w1 Hsome) as (o2 & Hl2 & Ho2).
  exists (o1 ++ o2). split; [|by exists o1, o2].
  cbn in Hl1. by rewrite Hl2, Hl1, app_assoc.
Qed.

Lemma logs_within {A} (allowed : list fs_op) (m : Run A) :
  writes_within allowed m → logs (λ ops, ops `sublist_of` allowed) m.
Proof.
  intros Hm w _. destruct (Hm w) as (ops & Hsub & Hlog & _). by exists ops.
Qed.

Lemma logs_nothing {A} (m : Run A) :
  writes_within [] m → logs (λ ops, ops = []) m.
Proof.
  intros Hm. eapply logs_mono; [|by apply logs_within].
  intros ops Hsub. by apply sublist_nil_r.
Qed.

Lemma logs_bind_quiet {A B} (P : list fs_op → Prop) (m : Run A) (k : A → Run B) :
  writes_within [] m → (∀ x, logs P (k x)) → logs P (bind m k).
Proof.
  intros Hm Hk. eapply logs_mono; [|apply logs_bind; [by apply logs_nothing | exact Hk]].
  intros ops (o1 & o2 & -> & -> & Ho2). done.
Qed.

Lemma logs_download_file (url fname : str) :
  logs (λ ops, ops = [urlretrieve url fname]) (download_file url fname).
Proof.
  intros w Hsome. unfold download_file in *.
  destruct (http_get url); [|by destruct Hsome]. by eexists.
Qed.

Lemma logs_cell4 : logs (λ ops, ops = take 2 notebook_writes) cell4.
Proof.
  unfold cell4. eapply logs_mono; [|apply logs_bind;
    [apply logs_download_file | intros _; apply logs_download_file]].
  intros ops (o1 & o2 & -> & -> & ->). done.
Qed.

Lemma logs_cell21 :
  logs (λ ops, ∃ rest, ops = take 2 (drop 2 notebook_writes) ++ rest
                       ∧ rest `sublist_of` drop 4 notebook_writes) cell21.
Proof.
  unfold cell21.
  eapply logs_mono; [|apply logs_bind; [apply logs_download_file | intros _;
    apply logs_bind; [apply logs_download_file | intros _;
      apply (logs_within (drop 4 notebook_writes));
      apply (writes_within_bind [_] [_]); [|intros _]; apply writes_within_tar_xzf]]].
  intros ops (o1 & o2 & -> & -> & o3 & o4 & -> & -> & Hsub). by exists o4.
Qed.

(** X16. A run of the notebook that reaches its end has made the four
    downloads, in the order of the cells, and after them at most the two
    extractions: nothing else is in its record of writes, and no download is
    missing from it. *)
Theorem notebook_run_downloads (w : World) :
  is_Some (notebook w).1 →
  ∃ rest : list fs_op,
    oplog (notebook w).2 = oplog w ++ take 4 notebook_writes ++ rest
    ∧ rest `sublist_of` drop 4 notebook_writes.
Proof.
  intros Hsome.
  assert (logs (λ ops, ∃ rest, ops = take 4 notebook_writes ++ rest
                               ∧ rest `sublist_of` drop 4 notebook_writes) notebook)
    as Hlogs.
  { unfold notebook.
    eapply logs_mono; [|apply logs_bind; [apply logs_cell4|]]; cycle 1.
    - intros _.
      apply logs_bind_quiet; [apply writes_within_cell5|].
      intros [comments annotations].
      do 5 (apply logs_bind_quiet; [apply writes_within_lift|]; intros [? ?]).
      eapply logs_mono; [|apply logs_bind; [apply logs_cell21|]]; cycle 1.
      + intros _.
        apply logs_bind_quiet; [apply writes_within_cell23|]. intros corpus.
        apply logs_bind_quiet; [apply writes_within_lift|]. intros scored.
        apply logs_nothing, writes_within_ret.
      + intros ops (o1 & o2 & -> & Ho1 & ->). rewrite app_nil_r. exact Ho1.
    - intros ops (o1 & o2 & -> & -> & rest & -> & Hsub). by exists rest. }
  destruct (Hlogs w Hsome) as (ops & Hlog & rest & -> & Hsub).
  by exists rest.
Qed.

End NotebookMore.

(** ** The theorems at concrete inputs *)

Example replace_ex1 :
  Str.replace (py "ab") (py "-") (py "xabababy") = py "x---y".
Proof. reflexivity. Qed.

Example replace_ex2 :
  Str.replace (py "aa") (py "b") (py "aaaaa") = py "bba".
Proof. reflexivity. Qed.

Example replace_ex3 : Str.replace [] (py "-") (py "abc") = py "-a-b-c-".
Proof. reflexivity. Qed.

Example punct_length : length Clean.PUNCT = 41.
Proof. reflexivity. Qed.


(** C9 as stated fails: one pass over [[0-[0-9]9]] leaves [[0-9]], a second
    pass leaves nothing. *)
Lemma clean_not_idempotent :
  ¬ (∀ x : str, Clean.clean_comment (Clean.clean_comment x) = Clean.clean_comment x).
Proof.
  intros H. specialize (H (py "[0-[0-9]9]")). vm_compute in H. discriminate.
Qed.

(** C5 fails on the code: cell 24 leaves a corpus comment with the text
    [[0-9]] in it as it is, where the cleaning of cell 9 deletes the text. *)
Lemma corpus_misses_rules :
  cell24_clean [Demo.chunk_row 301 "match [0-9] here" 0 0]
  = [Demo.chunk_row 301 "match [0-9] here" 0 0]
  ∧ Clean.clean_comment (py "match [0-9] here") = py "match  here".
Proof. split; vm_compute; reflexivity. Qed.

(** So the two cleanings are not the same function. *)
Lemma corpus_cleaning_differs :
  ¬ (∀ x : str, Clean.clean_corpus_comment x = Clean.clean_comment x).
Proof.
  intros H. specialize (H (py "[0-9]")). vm_compute in H. discriminate.
Qed.

(** With [analyzer='word'] the same [ngram_range] would make the features
    depend on the order of the tokens. *)
Example word_ngrams_see_order :
  ¬ (word_ngrams (1, 4) [py "you"; py "fool"] ≡ₚ word_ngrams (1, 4) [py "fool"; py "you"]).
Proof.
  intros Hp.
  assert (py "you fool" ∈ word_ngrams (1, 4) [py "you"; py "fool"]) as Hin.
  { apply list_elem_of_In. vm_compute. tauto. }
  rewrite Hp in Hin. apply list_elem_of_In in Hin. vm_compute in Hin.
  intuition discriminate.
Qed.

(** The notebook run from an empty machine: every cell succeeds, the six
    writes are made, and seven files exist at the end. *)
Example notebook_demo :
  is_Some (@notebook Demo.sklearn Demo.estimators Demo.host Demo.fresh).1
  ∧ oplog (@notebook Demo.sklearn Demo.estimators Demo.host Demo.fresh).2 = notebook_writes
  ∧ size (files (@notebook Demo.sklearn Demo.estimators Demo.host Demo.fresh).2) = 7.
Proof. vm_compute. repeat split. by eexists. Qed.


(** The first row sampled from the user corpus. *)
Lemma load_no_bot_no_admin_rows_witness :
  let r := Corpus.set_year 2004 (Corpus.set_ns (py "user")
             (Corpus.set_include (Demo.chunk_row 101 "you fool NEWLINE_TOKEN" 0 0) 1)) in
  Corpus.bot r = 0%Z ∧ Corpus.admin r = 0%Z ∧ Corpus.include r = 1%Z
  ∧ Corpus.ns r = py "user" ∧ Corpus.year r = 2004%Z
  ∧ ∃ (filename : str) (df : list Corpus.row) (r0 : Corpus.row),
      re_match_chunk filename = true
      ∧ @files Demo.host Demo.unpacked
          !! path_join (py "comments_" ++ py "user" ++ py "_" ++ format_d 2004) filename
          ≫= @parse_chunk Demo.host = Some df
      ∧ r0 ∈ df ∧ Corpus.bot r0 = 0%Z ∧ Corpus.admin r0 = 0%Z
      ∧ r = Corpus.set_year 2004 (Corpus.set_ns (py "user") (Corpus.set_include r0 1)).
Proof.
  apply (@load_no_bot_no_admin_rows Demo.host (py "user") 2004 (1 # 10) Demo.unpacked
           (@load_no_bot_no_admin Demo.host (py "user") 2004 (1 # 10) Demo.unpacked).2
           (default [] (@load_no_bot_no_admin Demo.host (py "user") 2004 (1 # 10) Demo.unpacked).1)
           0).
  - vm_compute. reflexivity.
  - vm_compute. reflexivity.
Defined.

(** Two comments with the same words in another order get the same row,
    although the vectorizer was given [ngram_range=(1,4)]. *)
Lemma bag_of_words_witness :
  map (@count_row Demo.sklearn Demo.trained) [py "you fool"]
  = map (@count_row Demo.sklearn Demo.trained) [py "fool you"]
  ∧ map (@Pipeline_transform Demo.sklearn Demo.trained) [py "you fool"]
    = map (@Pipeline_transform Demo.sklearn Demo.trained) [py "fool you"]
  ∧ @Pipeline_predict Demo.sklearn Demo.trained [py "you fool"]
    = @Pipeline_predict Demo.sklearn Demo.trained [py "fool you"]
  ∧ @Pipeline_predict_proba Demo.sklearn Demo.trained [py "you fool"]
    = @Pipeline_predict_proba Demo.sklearn Demo.trained [py "fool you"].
Proof.
  apply (@bag_of_words Demo.sklearn Demo.scorer Demo.labelled Demo.trained
           (@report_with Demo.sklearn Demo.trained Demo.labelled
              (bools (@Pipeline_predict Demo.sklearn Demo.trained
                        (map Comment.comment (query_split (py "test") Demo.labelled)))))).
  - right. right. left. reflexivity.
  - constructor; [|constructor]. vm_compute. apply perm_swap.
Defined.



(** Revision 1 has two votes for and one against: labelled [True]. *)
Lemma majority_of_votes_witness :
  true = true
  ↔ length (attack_values 1 Demo.annotations) < 2 * votes_for 1 Demo.annotations.
Proof.
  apply (majority_of_votes Demo.annotations 1 true).
  - vm_compute. reflexivity.
  - vm_compute.
    repeat (apply List.Forall_cons; [first [left; reflexivity | right; reflexivity] |]).
    apply List.Forall_nil.
Defined.

(** Revision 6 has no annotation. *)
Lemma unlabelled_comment_witness :
  cell8 Demo.comments (cell7 Demo.annotations) !! 5
  = Some (Comment.set_attack None (Demo.comment_row 6 "no label" "dev"))
  ∧ length (cell8 Demo.comments (cell7 Demo.annotations)) = length Demo.comments.
Proof.
  apply (unlabelled_comment Demo.annotations Demo.comments 5
           (Demo.comment_row 6 "no label" "dev")).
  - reflexivity.
  - vm_compute.
    repeat (apply List.Forall_cons; [intros Heq; discriminate Heq |]).
    apply List.Forall_nil.
Defined.



(** [utter] and [indeed] are not in the vocabulary. *)
Lemma unknown_words_ignored_witness :
  @count_row Demo.sklearn Demo.trained (py "you utter fool")
  = @count_row Demo.sklearn Demo.trained (py "fool you indeed")
  ∧ @Pipeline_predict Demo.sklearn Demo.trained [py "you utter fool"]
    = @Pipeline_predict Demo.sklearn Demo.trained [py "fool you indeed"]
  ∧ @Pipeline_predict_proba Demo.sklearn Demo.trained [py "you utter fool"]
    = @Pipeline_predict_proba Demo.sklearn Demo.trained [py "fool you indeed"].
Proof.
  apply (@unknown_words_ignored Demo.sklearn Demo.scorer Demo.labelled
           (py "you utter fool") (py "fool you indeed")).
  vm_compute. apply perm_swap.
Defined.

(** On the demo machine the two tables read are the two tables served. *)
Lemma tables_read_are_downloaded_witness :
  (bind (@cell4 Demo.host) (λ _, @cell5 Demo.host) Demo.fresh).1
  = Some (Demo.comments, Demo.annotations).
Proof.
  apply (eq_trans (@tables_read_are_downloaded Demo.host Demo.fresh
                     (py "comments table") (py "annotations table") eq_refl eq_refl)).
  reflexivity.
Defined.

(** The full run on the demo machine. *)
Lemma notebook_run_downloads_witness :
  ∃ rest : list fs_op,
    oplog (@notebook Demo.sklearn Demo.estimators Demo.host Demo.fresh).2
    = oplog Demo.fresh ++ take 4 notebook_writes ++ rest
    ∧ rest `sublist_of` drop 4 notebook_writes.
Proof.
  apply (@notebook_run_downloads Demo.sklearn Demo.estimators Demo.host Demo.fresh).
  vm_compute. by eexists.
Defined.
